(** * Heading and title classifier of [process_pdfs.py]

    A shallow embedding of the classification core of the PDF outline
    extractor ([is_bold], [is_heading_numbered], [compute_heading_score],
    [identify_headings]) together with the properties its specification
    states about it.

    Conventions of the embedding.
    - Python [float] values (font sizes, coordinates) are exact rationals
      [Q]; arithmetic, comparisons and [round] are the exact ones, and
      [float('inf')] is the absent bound of a comparison.
    - Python [int] values (pages, flags, scores, block densities) are [Z].
    - A [str] is a [string] whose characters are the code points U+0000 to
      U+00FF; the character classes of Python ([str.isalnum], [str.isspace],
      [str.lower], the regex classes [\d] and [\s]) are written out for
      that range. [unicodedata.normalize] is a parameter.
    - Dictionaries with fixed keys (spans, lines, outline entries) are
      records; [heading_size_map] is a [gmap string Q], [seen_headings] a
      [gset], the [Counter] of headings per page a [gmap Z Z] read with
      default 0, the [Counter] of sizes a list of keys and counts in
      insertion order, which [most_common] depends on.
    - What is read through [pdf_path] (metadata title, height of the first
      page) is the record [Pdf].
    - An uncaught Python exception (the unguarded division in the title
      scoring, [statistics.median] of no data) is the result [None]. *)

From Stdlib Require Import ZArith QArith Qabs Qround String Ascii Lia.
From stdpp Require Import gmap strings list fin_maps sorting.

Local Open Scope Z_scope.

(** ** Numbers *)

Definition Qltb (x y : Q) : bool := negb (Qle_bool y x).

Infix "<?" := Qltb (at level 70, no associativity) : Q_scope.
Infix "<=?" := Qle_bool (at level 70, no associativity) : Q_scope.
Notation "x >? y" := (Qltb y x) (at level 70, no associativity) : Q_scope.
Notation "x >=? y" := (Qle_bool y x) (at level 70, no associativity) : Q_scope.
Infix "=?" := Qeq_bool (at level 70, no associativity) : Q_scope.

(** [sum(xs)] over floats. *)
Definition Qsum (xs : list Q) : Q := foldr Qplus 0%Q xs.

(** [len(xs)] as a float operand. *)
Definition Qlen {A} (xs : list A) : Q := inject_Z (Z.of_nat (length xs)).

(** Python's [max(a, b)]: the first argument unless the second is larger. *)
Definition Qmax2 (a b : Q) : Q := if (a <? b)%Q then b else a.

(** ** Text *)

Definition code (c : ascii) : Z := Z.of_N (N_of_ascii c).

Definition in_range (lo hi : Z) (c : ascii) : bool :=
  (lo <=? code c) && (code c <=? hi).

(** [str.isspace] of one character, also the regex class [\s]:
    TAB..CR, FS..US, SPACE, NEL and NBSP. *)
Definition isspace (c : ascii) : bool :=
  in_range 9 13 c || in_range 28 31 c || (code c =? 32)
  || (code c =? 133) || (code c =? 160).

(** The regex class [\d] (Unicode decimal digits). *)
Definition isdecimal (c : ascii) : bool := in_range 48 57 c.

(** [str.isalnum] of one character: letters, decimal digits, and the
    digit-like and numeric characters of the Latin-1 supplement. *)
Definition isalnum (c : ascii) : bool :=
  in_range 48 57 c || in_range 65 90 c || in_range 97 122 c
  || (code c =? 170) || (code c =? 178) || (code c =? 179) || (code c =? 181)
  || (code c =? 185) || (code c =? 186) || in_range 188 190 c
  || in_range 192 214 c || in_range 216 246 c || in_range 248 255 c.

(** [str.lower] of one character. *)
Definition lower_char (c : ascii) : ascii :=
  if in_range 65 90 c || in_range 192 214 c || in_range 216 222 c
  then ascii_of_N (N_of_ascii c + 32) else c.

Fixpoint lower (s : string) : string :=
  match s with
  | EmptyString => EmptyString
  | String c s' => String (lower_char c) (lower s')
  end.

Fixpoint lstrip (s : string) : string :=
  match s with
  | EmptyString => EmptyString
  | String c s' => if isspace c then lstrip s' else s
  end.

(** Drops trailing whitespace: a character is kept when something is kept
    after it or when it is not whitespace. *)
Fixpoint rstrip (s : string) : string :=
  match s with
  | EmptyString => EmptyString
  | String c s' =>
      match rstrip s' with
      | EmptyString => if isspace c then EmptyString else String c EmptyString
      | r => String c r
      end
  end.

(** [str.strip()]. *)
Definition strip (s : string) : string := rstrip (lstrip s).

(** [sum(c.isalnum() for c in s)]. *)
Fixpoint count_alnum (s : string) : Z :=
  match s with
  | EmptyString => 0
  | String c s' => (if isalnum c then 1 else 0) + count_alnum s'
  end.

(** [len(s)]. *)
Definition len (s : string) : Z := Z.of_nat (String.length s).

(** [sep.join(parts)]. *)
Fixpoint join (sep : string) (parts : list string) : string :=
  match parts with
  | [] => EmptyString
  | [p] => p
  | p :: ps => p +:+ sep +:+ join sep ps
  end.

(** ** Regular expressions, as far as [re.match] is used

    [re_match r s] tells whether [re.match] finds a match of [r] at the
    start of [s]. Matching goes by derivatives; the zero-width assertions
    [^] and [$] are decided from the position (at the start or not) and the
    text that remains. *)

Inductive regex : Type :=
  | RNone                       (* matches nothing *)
  | REps                        (* the empty pattern *)
  | RStart                      (* ^ *)
  | REnd                        (* $ *)
  | RDigit                      (* \d *)
  | RSpace                      (* \s *)
  | RChar (c : ascii)           (* a literal character *)
  | RSeq (r1 r2 : regex)
  | RAlt (r1 r2 : regex)
  | RStar (r : regex).

Definition RPlus (r : regex) : regex := RSeq r (RStar r).

Definition newline : ascii := ascii_of_N 10.

(** [$] without MULTILINE: at the end, or just before a final newline. *)
Definition at_end (rest : string) : bool :=
  match rest with
  | EmptyString => true
  | String c EmptyString => Ascii.eqb c newline
  | _ => false
  end.

Fixpoint nullable (r : regex) (start : bool) (rest : string) : bool :=
  match r with
  | RNone => false
  | REps => true
  | RStart => start
  | REnd => at_end rest
  | RDigit | RSpace | RChar _ => false
  | RSeq r1 r2 => nullable r1 start rest && nullable r2 start rest
  | RAlt r1 r2 => nullable r1 start rest || nullable r2 start rest
  | RStar _ => true
  end.

(** Derivative by the character [c] read at a position where [String c rest]
    remains. *)
Fixpoint deriv (r : regex) (start : bool) (c : ascii) (rest : string) : regex :=
  match r with
  | RNone | REps | RStart | REnd => RNone
  | RDigit => if isdecimal c then REps else RNone
  | RSpace => if isspace c then REps else RNone
  | RChar d => if Ascii.eqb c d then REps else RNone
  | RSeq r1 r2 =>
      RAlt (RSeq (deriv r1 start c rest) r2)
           (if nullable r1 start (String c rest)
            then deriv r2 start c rest else RNone)
  | RAlt r1 r2 => RAlt (deriv r1 start c rest) (deriv r2 start c rest)
  | RStar r1 => RSeq (deriv r1 start c rest) (RStar r1)
  end.

Fixpoint re_match_from (r : regex) (start : bool) (s : string) : bool :=
  nullable r start s ||
  match s with
  | EmptyString => false
  | String c s' => re_match_from (deriv r start c s') false s'
  end.

Definition re_match (r : regex) (s : string) : bool := re_match_from r true s.

(** ** Spans and lines *)

Definition bbox : Type := Q * Q * Q * Q.

(** [b[1]] and [b[3]]: top and bottom y-coordinate. *)
Definition bbox_1 (b : bbox) : Q := let '(_, y0, _, _) := b in y0.
Definition bbox_3 (b : bbox) : Q := let '(_, _, _, y1) := b in y1.

Module Span.
Record t : Type := mk {
  text : string;
  font : string;
  size : Q;
  flags : Z;
  bbox : bbox
}.
End Span.

Module Line.
Record t : Type := mk {
  text : string;
  page : Z;
  bbox : bbox;
  spans : list Span.t;
  is_centered : bool;
  spacing_above : Q;
  block_density : Z
}.
End Line.

(** ** The heading scorer *)

Definition is_bold (flags : Z) : bool := negb (Z.land flags 4 =? 0).

(** The pattern [^\d+(\.\d+)*(\.\s|\s|$)]. *)
Definition numbering_pattern : regex :=
  RSeq RStart
    (RSeq (RPlus RDigit)
       (RSeq (RStar (RSeq (RChar ".") (RPlus RDigit)))
          (RAlt (RSeq (RChar ".") RSpace) (RAlt RSpace REnd)))).

Definition is_heading_numbered (text : string) : bool :=
  re_match numbering_pattern text.

(** [sum(span["size"] for span in spans) / len(spans) if spans else 0]. *)
Definition avg_size_of (spans : list Span.t) : Q :=
  match spans with
  | [] => 0%Q
  | _ => (Qsum (Span.size <$> spans) / Qlen spans)%Q
  end.

(** ["Hk" in heading_size_map and avg_size >= heading_size_map["Hk"] * 0.95]. *)
Definition reaches (heading_size_map : gmap string Q) (k : string) (avg_size : Q) : bool :=
  match heading_size_map !! k with
  | Some h => (avg_size >=? h * 0.95)%Q
  | None => false
  end.

Definition compute_heading_score (line : Line.t) (heading_size_map : gmap string Q)
    (body_text_size : Q) : Z :=
  let avg_size := avg_size_of (Line.spans line) in
  let is_any_bold := existsb (fun span => is_bold (Span.flags span)) (Line.spans line) in
  let is_numbered := is_heading_numbered (Line.text line) in
  let is_short := len (Line.text line) <? 80 in
  let is_centered := Line.is_centered line in
  let spacing_above :=
    if (Line.spacing_above line >? 0)%Q then Line.spacing_above line else 0%Q in
  let is_sparse := Line.block_density line <=? 3 in
  let score := 0 in
  let score := if (avg_size >? body_text_size * 1.2)%Q then score + 40 else score in
  let score := if is_any_bold then score + 25 else score in
  let score := if is_numbered then score + 25 else score in
  let score := if is_short then score + 20 else score in
  let score := if is_centered then score + 15 else score in
  let score := if (spacing_above >? avg_size * 2)%Q then score + 20 else score in
  let score := if is_sparse then score + 15 else score in
  (* Bonus for matching heading sizes *)
  let score :=
    if reaches heading_size_map "H1" avg_size then score + 25
    else if reaches heading_size_map "H2" avg_size then score + 20
    else if reaches heading_size_map "H3" avg_size then score + 15
    else score in
  score.

(** ** Sorting, median and counting

    [sorted lt l] is Python's stable sort for the strict order [lt] on the
    keys: an element is put before the first element that is not smaller
    than it, so equal elements keep their order. A descending sort
    ([reverse=True]) is the sort for the reversed order. *)

Fixpoint insert_sorted {A} (lt : A -> A -> bool) (x : A) (l : list A) : list A :=
  match l with
  | [] => [x]
  | y :: l' => if lt y x then y :: insert_sorted lt x l' else x :: l
  end.

Definition sorted {A} (lt : A -> A -> bool) (l : list A) : list A :=
  foldr (insert_sorted lt) [] l.

(** The order of a sorted result: no element is smaller than one before it. *)
Definition le_of {A} (lt : A -> A -> bool) (a b : A) : Prop := lt b a = false.

(** [statistics.median]; [None] is its [StatisticsError] on no data. *)
Definition median (data : list Q) : option Q :=
  let data := sorted Qltb data in
  let n := length data in
  if (n =? 0)%nat then None
  else if (n mod 2 =? 1)%nat then data !! (n / 2)%nat
  else
    let i := (n / 2)%nat in
    a ← data !! (i - 1)%nat; b ← data !! i; Some ((a + b) / 2)%Q.

(** Rounding to the nearest integer, ties to the even one. *)
Definition round_half_even (q : Q) : Z :=
  let f := Qfloor q in
  match (q - inject_Z f ?= 1 # 2)%Q with
  | Lt => f
  | Gt => f + 1
  | Eq => if Z.even f then f else f + 1
  end.

(** [round(s, 1)]. *)
Definition round1 (s : Q) : Q := (inject_Z (round_half_even (s * 10)) / 10)%Q.

(** A [Counter] over floats: the keys in insertion order with their counts. *)
Fixpoint counter_incr (k : Q) (c : list (Q * Z)) : list (Q * Z) :=
  match c with
  | [] => [(k, 1)]
  | (k', n) :: c' =>
      if (k' =? k)%Q then (k', n + 1) :: c' else (k', n) :: counter_incr k c'
  end.

Definition Counter (xs : list Q) : list (Q * Z) :=
  foldl (fun c x => counter_incr x c) [] xs.

(** [Counter.most_common()]: by count, descending, ties in insertion order. *)
Definition most_common (c : list (Q * Z)) : list (Q * Z) :=
  sorted (fun a b => snd b <? snd a) c.

(** [list(set(xs))] up to the order, which the callers sort away. *)
Fixpoint distinct (xs : list Q) : list Q :=
  match xs with
  | [] => []
  | x :: xs' => x :: filter (fun y => Qeq_bool x y = false) (distinct xs')
  end.

(** ** The typography profile *)

(** [[span["size"] for line in lines for span in line["spans"] if span["size"] > 6]]. *)
Definition all_font_sizes (lines : list Line.t) : list Q :=
  flat_map (fun line =>
    filter (fun s => (s >? 6)%Q = true) (Span.size <$> Line.spans line)) lines.

Definition body_text_size (all_font_sizes : list Q) : option Q :=
  body_text_size ← median all_font_sizes;
  let size_counts := most_common (Counter (round1 <$> all_font_sizes)) in
  match size_counts with
  | (mode, _) :: _ => Some (Qmax2 body_text_size mode)
  | [] => Some body_text_size
  end.

Definition potential_heading_sizes (all_font_sizes : list Q) (body_text_size : Q) : list Q :=
  sorted (fun a b => (b <? a)%Q)
    (distinct (filter (fun s => (s >? body_text_size * 1.2)%Q = true) all_font_sizes)).

(** [len(sizes) >= k + 1 and sizes[k] < sizes[0] * 0.95]. *)
Definition distinct_tier (sizes : list Q) (k : nat) : bool :=
  match sizes !! k, sizes !! 0%nat with
  | Some c, Some c0 => (c <? c0 * 0.95)%Q
  | _, _ => false
  end.

(** [sizes[k]], read only where the index is in range. *)
Definition item (sizes : list Q) (k : nat) : Q := default 0%Q (sizes !! k).

Definition heading_size_map (potential_heading_sizes : list Q) : gmap string Q :=
  let m : gmap string Q := ∅ in
  let m := match potential_heading_sizes with
           | _ :: _ => <["H1" := item potential_heading_sizes 0]> m
           | [] => m
           end in
  let m := if distinct_tier potential_heading_sizes 1
           then <["H2" := item potential_heading_sizes 1]> m else m in
  let m := if distinct_tier potential_heading_sizes 2
           then <["H3" := item potential_heading_sizes 2]> m else m in
  let m := if distinct_tier potential_heading_sizes 3
           then <["H4" := item potential_heading_sizes 3]> m else m in
  m.

(** ** Outline entries and the result *)

Module Entry.
(** An outline entry; [y0] is [None] once [del entry["y0"]] has run. *)
Record t : Type := mk {
  level : string;
  text : string;
  page : Z;
  y0 : option Q
}.
End Entry.

Record DocumentOutline : Type := mkDocumentOutline {
  title : string;
  outline : list Entry.t
}.

(** What [identify_headings] reads through [pdf_path]: the metadata title
    ([None] when reading it fails or the document has no title) and the
    height of the first page, [mediabox.height] of page 0. *)
Record Pdf : Type := mkPdf {
  metadata_title : option string;
  first_page_height : Q
}.

Definition No_Title_Found : string := "No Title Found".

(** ** Title detection *)

Section identify_headings.

(** [unicodedata.normalize("NFKC", _)]. *)
Variable nfkc : string -> string.

Definition title_from_metadata (pdf : Pdf) : string :=
  match metadata_title pdf with
  | Some t =>
      if negb (String.eqb t "") && negb (String.eqb (strip t) "")
         && (count_alnum t >=? 3)
      then nfkc (strip t) else No_Title_Found
  | None => No_Title_Found
  end.

Definition line_avg_size (line : Line.t) : Q := avg_size_of (Line.spans line).

(** State of the clustering loop over the first page. *)
Record clusters : Type := mkClusters {
  title_candidates : list (list Line.t);
  current_title : list Line.t;
  prev_size : option Q;
  prev_y1 : option Q
}.

Definition cluster_step (st : clusters) (line : Line.t) : clusters :=
  let avg_size := line_avg_size line in
  let joins :=
    match prev_size st with
    | None => true
    | Some prev_size =>
        match prev_y1 st with
        | Some prev_y1 =>
            (bbox_1 (Line.bbox line) - prev_y1 <? avg_size * 1.5)%Q
            && (Qabs (avg_size - prev_size) <? 1.0)%Q
        | None => false
        end
    end in
  if joins then
    mkClusters (title_candidates st) (current_title st ++ [line])
      (Some avg_size) (Some (bbox_3 (Line.bbox line)))
  else
    mkClusters
      (match current_title st with
       | [] => title_candidates st
       | _ => title_candidates st ++ [current_title st]
       end)
      [line] (Some avg_size) (Some (bbox_3 (Line.bbox line))).

Definition cluster_lines (first_page_lines : list Line.t) : list (list Line.t) :=
  let st := foldl cluster_step (mkClusters [] [] None None) first_page_lines in
  match current_title st with
  | [] => title_candidates st
  | _ => title_candidates st ++ [current_title st]
  end.

(** [sum(span sizes) / len(line["spans"])] without the guard: a line with no
    span raises [ZeroDivisionError]. *)
Definition unguarded_avg_size (line : Line.t) : option Q :=
  match Line.spans line with
  | [] => None
  | spans => Some (Qsum (Span.size <$> spans) / Qlen spans)%Q
  end.

Definition candidate_score (pdf : Pdf) (body_text_size : Q)
    (candidate : list Line.t) : option Z :=
  avgs ← mapM unguarded_avg_size candidate;
  let avg_size := (Qsum avgs / Qlen candidate)%Q in
  first ← head candidate;
  let score := 0 in
  let score := if (avg_size >? body_text_size * 1.3)%Q then score + 40 else score in
  let score := if existsb Line.is_centered candidate then score + 25 else score in
  let score :=
    if existsb (fun line =>
         existsb (fun span => is_bold (Span.flags span)) (Line.spans line)) candidate
    then score + 25 else score in
  let score :=
    if (bbox_1 (Line.bbox first) <? 0.25 * first_page_height pdf)%Q
    then score + 30 else score in
  let score :=
    if (length candidate =? 1)%nat
       || ((1 <? length candidate)%nat
           && forallb (fun line => Line.block_density line <=? 3) candidate)
    then score + 20 else score in
  Some score.

(** One round of the loop over the title candidates, on the pair
    [(best_title_score, best_title_text)]. *)
Definition best_title_step (pdf : Pdf) (body_text_size : Q)
    (best : Z * string) (candidate : list Line.t) : option (Z * string) :=
  let text := join " " (Line.text <$> candidate) in
  if (count_alnum text <? 3) || (len text <? 5) then Some best
  else
    score ← candidate_score pdf body_text_size candidate;
    if (score >? fst best) && (score >=? 80) then Some (score, text)
    else Some best.

Fixpoint best_title (pdf : Pdf) (body_text_size : Q) (best : Z * string)
    (candidates : list (list Line.t)) : option (Z * string) :=
  match candidates with
  | [] => Some best
  | candidate :: rest =>
      best' ← best_title_step pdf body_text_size best candidate;
      best_title pdf body_text_size best' rest
  end.

Definition detect_title (pdf : Pdf) (lines : list Line.t) (body_text_size : Q)
    (title : string) : option string :=
  let first_page_lines :=
    sorted (fun a b => (bbox_1 (Line.bbox a) <? bbox_1 (Line.bbox b))%Q)
      (filter (fun line => Line.page line = 1) lines) in
  let title_candidates := cluster_lines first_page_lines in
  best ← best_title pdf body_text_size (0, title) title_candidates;
  if fst best >=? 80 then Some (snd best) else Some title.

(** ** The outline assembler *)

(** The level cascade; [None] is no level. *)
Definition assign_level (heading_size_map : gmap string Q) (avg_size : Q)
    (score : Z) : option string :=
  let below (k : string) :=
    match heading_size_map !! k with
    | Some h => (avg_size <? h * 0.95)%Q
    | None => true
    end in
  if reaches heading_size_map "H1" avg_size && (score >=? 100) then Some "H1"
  else if reaches heading_size_map "H2" avg_size && below "H1" && (score >=? 90)
  then Some "H2"
  else if reaches heading_size_map "H3" avg_size && below "H2" && (score >=? 80)
  then Some "H3"
  else None.

(** State of the loop over the lines. *)
Record scan : Type := mkScan {
  scan_outline : list Entry.t;
  seen_headings : gset (string * Z * string);
  headings_per_page : gmap Z Z
}.

(** [headings_per_page[page]] of a [Counter]. *)
Definition per_page (headings_per_page : gmap Z Z) (page : Z) : Z :=
  default 0 (headings_per_page !! page).

Definition scan_step (heading_size_map : gmap string Q) (body_text_size : Q)
    (title : string) (st : scan) (line : Line.t) : scan :=
  let text := Line.text line in
  let page := Line.page line in
  if (count_alnum text <? 2) || (len text <? 3) then st
  else if per_page (headings_per_page st) page >? 8 then st
  else if Line.block_density line >? 5 then st
  else
    let score := compute_heading_score line heading_size_map body_text_size in
    if score <? 80 then st
    else
      let avg_size := avg_size_of (Line.spans line) in
      match assign_level heading_size_map avg_size score with
      | Some level =>
          if bool_decide (text ≠ title) then
            let heading_identifier := (strip (lower text), page, level) in
            if bool_decide (heading_identifier ∉ seen_headings st) then
              mkScan
                (scan_outline st ++
                   [Entry.mk level text page (Some (bbox_1 (Line.bbox line)))])
                ({[ heading_identifier ]} ∪ seen_headings st)
                (<[page := per_page (headings_per_page st) page + 1]>
                   (headings_per_page st))
            else st
          else st
      | None => st
      end.

Definition scan_lines (heading_size_map : gmap string Q) (body_text_size : Q)
    (title : string) (lines : list Line.t) : scan :=
  foldl (scan_step heading_size_map body_text_size title) (mkScan [] ∅ ∅) lines.

(** The sort key [(x["page"], x["y0"])], compared as tuples. An entry
    without [y0] cannot be sorted; the loop never builds one. *)
Definition key_lt (a b : Entry.t) : bool :=
  (Entry.page a <? Entry.page b)
  || ((Entry.page a =? Entry.page b)
      && match Entry.y0 a, Entry.y0 b with
         | Some ya, Some yb => (ya <? yb)%Q
         | _, _ => false
         end).

Definition del_y0 (entry : Entry.t) : Entry.t :=
  Entry.mk (Entry.level entry) (Entry.text entry) (Entry.page entry) None.

(** The entry the fallback loop stops at: the first H1, looked for only
    when no title was found and the outline is not empty. *)
Definition promoted (title : string) (outline : list Entry.t) : option Entry.t :=
  if bool_decide (title = No_Title_Found) && negb (bool_decide (outline = [])) then
    snd <$> list_find (fun entry => Entry.level entry = "H1") outline
  else None.

(** Fallback: the first H1 becomes the title when none was found. *)
Definition fallback (title : string) (outline : list Entry.t) : DocumentOutline :=
  match promoted title outline with
  | Some entry =>
      let title := Entry.text entry in
      mkDocumentOutline title
        (filter (fun e => ¬ (Entry.text e = title ∧ Entry.page e = Entry.page entry))
           outline)
  | None => mkDocumentOutline title outline
  end.

(** From the font sizes to the end of the loop over the lines: the body
    size, the heading sizes, the title, and the headings in the order of
    the lines, each with the [y0] of its line. *)
Definition run_loop (lines : list Line.t) (pdf : Pdf) : option (string * list Entry.t) :=
  let all_font_sizes := all_font_sizes lines in
  body_text_size ← body_text_size all_font_sizes;
  let heading_size_map :=
    heading_size_map (potential_heading_sizes all_font_sizes body_text_size) in
  title ← detect_title pdf lines body_text_size (title_from_metadata pdf);
  Some (title,
        scan_outline (scan_lines heading_size_map body_text_size title lines)).

Definition identify_headings (lines : list Line.t) (pdf : Pdf) : option DocumentOutline :=
  match lines with
  | [] => Some (mkDocumentOutline No_Title_Found [])
  | _ =>
      let title := title_from_metadata pdf in
      match all_font_sizes lines with
      | [] => Some (mkDocumentOutline title [])
      | _ =>
          '(title, outline) ← run_loop lines pdf;
          let outline := sorted key_lt outline in
          let outline := del_y0 <$> outline in
          Some (fallback title outline)
      end
  end.

(** The title and the outline as they stand after sorting, before the
    fallback. *)
Definition assemble (lines : list Line.t) (pdf : Pdf) : option (string * list Entry.t) :=
  match lines with
  | [] => Some (No_Title_Found, [])
  | _ =>
      match all_font_sizes lines with
      | [] => Some (title_from_metadata pdf, [])
      | _ =>
          '(title, outline) ← run_loop lines pdf;
          Some (title, del_y0 <$> sorted key_lt outline)
      end
  end.

End identify_headings.

(** ** Notions used to state the properties *)

(** The identity under which a heading is remembered in [seen_headings]. *)
Definition heading_identifier (e : Entry.t) : string * Z * string :=
  (strip (lower (Entry.text e)), Entry.page e, Entry.level e).

(** The entries of an outline that lie on page [p]. *)
Definition on_page (p : Z) (outline : list Entry.t) : list Entry.t :=
  filter (fun e => Entry.page e = p) outline.

(** The entry that the loop builds from a line at a level. *)
Definition entry_of (level : string) (line : Line.t) : Entry.t :=
  Entry.mk level (Line.text line) (Line.page line) (Some (bbox_1 (Line.bbox line))).

(** Reading order on entries that still carry [y0]. *)
Definition reading_le (a b : Entry.t) : Prop :=
  Entry.page a < Entry.page b
  \/ (Entry.page a = Entry.page b
      /\ exists ya yb, Entry.y0 a = Some ya /\ Entry.y0 b = Some yb /\ (ya <= yb)%Q).

(** The headings accepted by the loop over the lines, in the order of the
    lines and with the [y0] of their lines; none when the loop is not
    reached. *)
Definition accepted (nfkc : string -> string) (lines : list Line.t) (pdf : Pdf) :
    list Entry.t :=
  match run_loop nfkc lines pdf with
  | Some (_, outline) => outline
  | None => []
  end.

(** The entry has the sort key [(p, y)]. *)
Definition has_key (p : Z) (y : Q) (e : Entry.t) : bool :=
  (Entry.page e =? p)
  && match Entry.y0 e with Some y' => Qeq_bool y' y | None => false end.

(** The result of the assembler for given heading sizes, body size and
    title: the loop over the lines, the sort and the fallback. *)
Definition outline_from (heading_size_map : gmap string Q) (body_text_size : Q)
    (title : string) (lines : list Line.t) : DocumentOutline :=
  fallback title
    (del_y0 <$> sorted key_lt
       (scan_outline (scan_lines heading_size_map body_text_size title lines))).

(** The level names of the profile, largest first. *)
Definition tiers : list string := ["H1"; "H2"; "H3"; "H4"].




(** A line as the extraction builds it carries at least one span. *)
Definition has_span (line : Line.t) : Prop := Line.spans line ≠ [].

(** A title candidate that can be scored: not empty, made of lines with spans. *)
Definition scorable (candidate : list Line.t) : Prop :=
  candidate ≠ [] /\ Forall has_span candidate.

(** The line with its text replaced. *)
Definition with_text (text : string) (line : Line.t) : Line.t :=
  Line.mk text (Line.page line) (Line.bbox line) (Line.spans line)
    (Line.is_centered line) (Line.spacing_above line) (Line.block_density line).

(** The points of the Numbered signal. *)
Definition numbered_points (text : string) : Z :=
  if is_heading_numbered text then 25 else 0.

(** ** The meaning of the patterns *)

(** [s = ""], as a flag. *)
Definition is_empty (s : string) : bool :=
  match s with EmptyString => true | _ => false end.

(** [matches r start w rest]: the pattern [r] matches the text [w] read at
    a position that is the start of the input when [start] holds, with
    [rest] left after [w]. Rounds of a star that read nothing are left out. *)
Inductive matches : regex -> bool -> string -> string -> Prop :=
  | m_eps start rest : matches REps start "" rest
  | m_start rest : matches RStart true "" rest
  | m_end start rest : at_end rest = true -> matches REnd start "" rest
  | m_digit start c rest :
      isdecimal c = true -> matches RDigit start (String c "") rest
  | m_space start c rest :
      isspace c = true -> matches RSpace start (String c "") rest
  | m_char start c rest : matches (RChar c) start (String c "") rest
  | m_seq r1 r2 start w1 w2 rest :
      matches r1 start w1 (w2 +:+ rest) ->
      matches r2 (start && is_empty w1) w2 rest ->
      matches (RSeq r1 r2) start (w1 +:+ w2) rest
  | m_alt_l r1 r2 start w rest :
      matches r1 start w rest -> matches (RAlt r1 r2) start w rest
  | m_alt_r r1 r2 start w rest :
      matches r2 start w rest -> matches (RAlt r1 r2) start w rest
  | m_star_nil r start rest : matches (RStar r) start "" rest
  | m_star_more r start c w1 w2 rest :
      matches r start (String c w1) (w2 +:+ rest) ->
      matches (RStar r) false w2 rest ->
      matches (RStar r) start (String c w1 +:+ w2) rest.

(** A non-empty run of decimal digits. *)
Fixpoint all_digits (w : string) : bool :=
  match w with
  | EmptyString => true
  | String c w' => isdecimal c && all_digits w'
  end.

Definition digit_group (w : string) : Prop := w ≠ "" /\ all_digits w = true.

(** What may follow the numbering: a dot and whitespace, whitespace, or the
    end of the text (also just before a final newline). *)
Definition after_numbering (rest : string) : Prop :=
  (exists c rest', rest = String "." (String c rest') /\ isspace c = true)
  \/ (exists c rest', rest = String c rest' /\ isspace c = true)
  \/ at_end rest = true.

(** The groups after the first, each behind its dot. *)
Fixpoint dotted (groups : list string) : string :=
  match groups with
  | [] => ""
  | g :: gs => "." +:+ g +:+ dotted gs
  end.

(** What the loop over the lines keeps true of its state. *)
Record scan_inv (title : string) (lines : list Line.t) (st : scan) : Prop := {
  inv_count : forall p,
    per_page (headings_per_page st) p = Z.of_nat (length (on_page p (scan_outline st)));
  inv_cap : forall p, per_page (headings_per_page st) p <= 9;
  inv_seen : forall id,
    id ∈ seen_headings st <-> id ∈ heading_identifier <$> scan_outline st;
  inv_nodup : NoDup (heading_identifier <$> scan_outline st);
  inv_title : Forall (fun e => Entry.text e ≠ title) (scan_outline st);
  inv_source : Forall (fun e => exists level line,
    line ∈ lines /\ e = entry_of level line
    /\ (level = "H1" \/ level = "H2" \/ level = "H3")) (scan_outline st)
}.

(** ** Sample documents *)

(** NFKC on text made of ASCII characters, which it leaves as it is. *)
Definition nfkc_ascii (s : string) : string := s.

(** A line of one span set at [size], with its top at [y0]. *)
Definition sample_line (text : string) (page : Z) (y0 size : Q) (flags : Z)
    (centered : bool) (spacing : Q) (density : Z) : Line.t :=
  Line.mk text page (72, y0, 300, y0 + size)%Q
    [Span.mk text "Helvetica" size flags (72, y0, 300, y0 + size)%Q]
    centered spacing density.

(** A paragraph line at 10 points in a dense block. *)
Definition body_line (page : Z) (y0 : Q) : Line.t :=
  sample_line "plain paragraph text" page y0 10 0 false 2 12.

(** A bold, centered, isolated line. *)
Definition heading_line (text : string) (page : Z) (y0 size : Q) : Line.t :=
  sample_line text page y0 size 4 true 60 1.

(** Body text with headings at 20, 19.5 and 15 points: the second size is
    within 5% of the first, the third is not. *)
Definition doc_close_sizes : list Line.t :=
  [ body_line 1 100; body_line 1 112; body_line 1 124; body_line 1 136;
    body_line 1 148;
    heading_line "Results" 2 100 20;
    heading_line "Discussion" 2 300 19.5;
    heading_line "Appendix" 2 500 15 ].

(** Twelve paragraph lines on page 1 and eleven headings on page 2. *)
Definition doc_many_headings : list Line.t :=
  (body_line 1 <$> [100; 112; 124; 136; 148; 160; 172; 184; 196; 208; 220; 232]%Q)
  ++ zip_with (fun text y0 => heading_line text 2 y0 20)
       ["Part A"; "Part B"; "Part C"; "Part D"; "Part E"; "Part F";
        "Part G"; "Part H"; "Part I"; "Part J"; "Part K"]
       [100; 150; 200; 250; 300; 350; 400; 450; 500; 550; 600]%Q.

(** Headings out of reading order, one repeated in another spelling on its
    page and once more on the next page. *)
Definition doc_repeated_heading : list Line.t :=
  (body_line 1 <$> [100; 112; 124; 136; 148; 160]%Q)
  ++ [ heading_line "Chapter 2" 2 300 20;
       heading_line "Chapter 1" 2 100 20;
       heading_line "CHAPTER 1 " 2 500 20;
       heading_line "Chapter 1" 3 100 20 ].

(** One line whose only span is below the noise floor. *)
Definition doc_tiny_print : list Line.t :=
  [ sample_line "fine print" 1 100 5 0 false 0 1 ].

Definition pdf_untitled : Pdf := mkPdf None 800.
Definition pdf_titled : Pdf := mkPdf (Some "Annual Report") 800.
Definition pdf_padded_title : Pdf := mkPdf (Some " Abc ") 800.

(** ** The line normalizer

    What [extract_text_details] reads from the document: pages with their
    media box and their blocks, blocks with a type (0 for text) and lines,
    lines as lists of raw spans. A raw span has the keys of [Span.t]. *)

Module Block.
Record t : Type := mk {
  type : Z;
  lines : list (list Span.t)
}.
End Block.

Module Page.
Record t : Type := mk {
  blocks : list Block.t;
  height : Q;
  width : Q
}.
End Page.

Record Document : Type := mkDocument {
  pages : list Page.t;
  document_title : option string
}.

(** Python's [min(a, b)]: the first argument unless the second is smaller. *)
Definition Qmin2 (a b : Q) : Q := if (b <? a)%Q then b else a.

(** [round(s, 2)]. *)
Definition round2 (s : Q) : Q := (inject_Z (round_half_even (s * 100)) / 100)%Q.

(** The class [[-=~|*#+]]. *)
Definition separator_char : regex :=
  RAlt (RChar "-") (RAlt (RChar "=") (RAlt (RChar "~") (RAlt (RChar "|")
    (RAlt (RChar "*") (RAlt (RChar "#") (RChar "+")))))).

(** The pattern [^[-=~|*#+]{2,}$]. *)
Definition separator_pattern : regex :=
  RSeq RStart
    (RSeq separator_char (RSeq separator_char (RSeq (RStar separator_char) REnd))).

(** A fold whose step can raise: the first [None] ends it. *)
Fixpoint foldM {S A} (f : S -> A -> option S) (st : S) (l : list A) : option S :=
  match l with
  | [] => Some st
  | x :: l' => st' ← f st x; foldM f st' l'
  end.

(** What the loop over the spans of a raw line collects: [line_text],
    [line_spans_details] and the box [(min_x0, min_y0, max_x1, max_y1)],
    which is [None] while the four bounds are still infinite. *)
Record line_acc : Type := mkLineAcc {
  line_text : string;
  line_spans_details : list Span.t;
  line_box : option bbox
}.

(** The four [min]/[max] updates with the box of a span. *)
Definition grow (box : option bbox) (b : bbox) : bbox :=
  let '(x0, y0, x1, y1) := b in
  match box with
  | None => b
  | Some (min_x0, min_y0, max_x1, max_y1) =>
      (Qmin2 min_x0 x0, Qmin2 min_y0 y0, Qmax2 max_x1 x1, Qmax2 max_y1 y1)
  end.

Section extract_text_details.

(** [unicodedata.normalize("NFKC", _)]. *)
Variable nfkc : string -> string.

Definition span_step (acc : line_acc) (span : Span.t) : line_acc :=
  let text := strip (Span.text span) in
  if String.eqb text "" then acc
  else
    let text := nfkc text in
    if re_match separator_pattern text || (len text <? 2) then acc
    else
      mkLineAcc (line_text acc +:+ text +:+ " ")
        (line_spans_details acc ++
           [Span.mk text (Span.font span) (round2 (Span.size span))
              (Span.flags span) (Span.bbox span)])
        (Some (grow (line_box acc) (Span.bbox span))).

(** One round of the loop over the lines of a block, on the pair
    [(current_page_lines, prev_y1)]; [None] is the [ZeroDivisionError] of
    [is_centered] on a page of width 0. With no span kept the text is empty
    and the line is skipped before its box is looked at. *)
Definition line_step (page_num : Z) (page : Page.t) (block : Block.t)
    (st : list Line.t * option Q) (spans : list Span.t) :
    option (list Line.t * option Q) :=
  let acc := foldl span_step (mkLineAcc "" [] None) spans in
  let line_text := strip (line_text acc) in
  if String.eqb line_text "" || (len line_text <? 3) || (count_alnum line_text <? 2)
  then Some st
  else
    match line_box acc with
    | None => Some st
    | Some (min_x0, min_y0, max_x1, max_y1) =>
        if (min_y0 <? 0.1 * Page.height page)%Q || (max_y1 >? 0.9 * Page.height page)%Q
        then Some st
        else
          let spacing_above :=
            match snd st with
            | Some prev_y1 => (min_y0 - prev_y1)%Q
            | None => 0%Q
            end in
          if Qeq_bool (Page.width page) 0 then None
          else
            Some (fst st ++
                    [Line.mk line_text (page_num + 1) (min_x0, min_y0, max_x1, max_y1)
                       (line_spans_details acc)
                       (Qabs (min_x0 + max_x1 - Page.width page) / Page.width page
                          <? 0.25)%Q
                       spacing_above
                       (Z.of_nat (length (Block.lines block)))],
                  Some max_y1)
    end.

Definition block_step (page_num : Z) (page : Page.t)
    (st : list Line.t * option Q) (block : Block.t) :
    option (list Line.t * option Q) :=
  if negb (Block.type block =? 0) then Some st
  else foldM (line_step page_num page block) st (Block.lines block).

(** [current_page_lines] of one page. *)
Definition page_lines (page_num : Z) (page : Page.t) : option (list Line.t) :=
  fst <$> foldM (block_step page_num page) ([], None) (Page.blocks page).

(** The loop over the pages from [page_num] on. *)
Fixpoint document_lines_from (page_num : Z) (pages : list Page.t)
    (document_lines : list Line.t) : option (list Line.t) :=
  match pages with
  | [] => Some document_lines
  | page :: rest =>
      current_page_lines ← page_lines page_num page;
      document_lines_from (page_num + 1) rest (document_lines ++ current_page_lines)
  end.

(** [file] is what [fitz.open(pdf_path)] gives, [None] when it raises. Every
    exception ends in the empty list. *)
Definition extract_text_details (file : option Document) : list Line.t :=
  match file with
  | Some doc => default [] (document_lines_from 0 (pages doc) [])
  | None => []
  end.

(** ** The batch driver *)

(** What [identify_headings] reads through the path of an opened document. *)
Definition pdf_of (doc : Document) : Pdf :=
  mkPdf (document_title doc)
    (match pages doc with
     | page :: _ => Page.height page
     | [] => 0%Q
     end).



End extract_text_details.

(** ** Notions used to state the properties of the line normalizer *)

(** [b[0]] and [b[2]]: left and right x-coordinate. *)
Definition bbox_0 (b : bbox) : Q := let '(x0, _, _, _) := b in x0.
Definition bbox_2 (b : bbox) : Q := let '(_, _, x1, _) := b in x1.

(** The text of every span followed by a space, in a row. *)
Fixpoint spaced (spans : list Span.t) : string :=
  match spans with
  | [] => ""
  | s :: ss => Span.text s +:+ " " +:+ spaced ss
  end.

(** The kept span [s] is the raw span [raw] cleaned: trimmed and
    normalized text that is no separator and has two characters or more,
    the size rounded, the rest as it was. *)
Definition cleaned (nfkc : string -> string) (raw s : Span.t) : Prop :=
  s = Span.mk (nfkc (strip (Span.text raw))) (Span.font raw)
        (round2 (Span.size raw)) (Span.flags raw) (Span.bbox raw)
  /\ strip (Span.text raw) ≠ ""
  /\ re_match separator_pattern (Span.text s) = false
  /\ 2 <= len (Span.text s).

(** The characters of the class [[-=~|*#+]]. *)
Definition is_separator_char (c : ascii) : bool :=
  existsb (Ascii.eqb c) ["-"; "="; "~"; "|"; "*"; "#"; "+"]%char.

Fixpoint all_separators (w : string) : bool :=
  match w with
  | EmptyString => true
  | String c w' => is_separator_char c && all_separators w'
  end.

(** A run of two or more separator characters, alone or before one final
    newline. *)
Definition separator_run (text : string) : Prop :=
  exists w,
    all_separators w = true /\ 2 <= len w
    /\ (text = w \/ text = w +:+ String newline "").

(** [box] contains the box of every span and touches one on each side. *)
Definition union_box (box : bbox) (spans : list Span.t) : Prop :=
  Forall (fun s =>
    (bbox_0 box <= bbox_0 (Span.bbox s))%Q /\ (bbox_1 box <= bbox_1 (Span.bbox s))%Q
    /\ (bbox_2 (Span.bbox s) <= bbox_2 box)%Q
    /\ (bbox_3 (Span.bbox s) <= bbox_3 box)%Q) spans
  /\ (exists s, s ∈ spans /\ bbox_0 box = bbox_0 (Span.bbox s))
  /\ (exists s, s ∈ spans /\ bbox_1 box = bbox_1 (Span.bbox s))
  /\ (exists s, s ∈ spans /\ bbox_2 box = bbox_2 (Span.bbox s))
  /\ (exists s, s ∈ spans /\ bbox_3 box = bbox_3 (Span.bbox s)).

(** What holds of a line that the loop over the raw lines [spans] of
    [block] appends on the page [page] numbered [page_num], after a line
    that ended at [prev_y1]. *)
Record line_facts (nfkc : string -> string) (page_num : Z) (page : Page.t)
    (block : Block.t) (prev_y1 : option Q) (spans : list Span.t) (l : Line.t) :
    Prop := {
  lf_page : Line.page l = page_num + 1;
  lf_text : Line.text l = strip (spaced (Line.spans l));
  lf_len : 3 <= len (Line.text l);
  lf_alnum : 2 <= count_alnum (Line.text l);
  lf_spans : Line.spans l ≠ [];
  lf_cleaned : Forall (fun s => exists raw, raw ∈ spans /\ cleaned nfkc raw s) (Line.spans l);
  lf_box : union_box (Line.bbox l) (Line.spans l);
  lf_top : (0.1 * Page.height page <= bbox_1 (Line.bbox l))%Q;
  lf_bottom : (bbox_3 (Line.bbox l) <= 0.9 * Page.height page)%Q;
  lf_width : ¬ (Page.width page == 0)%Q;
  lf_centered :
    Line.is_centered l =
    (Qabs (bbox_0 (Line.bbox l) + bbox_2 (Line.bbox l) - Page.width page)
       / Page.width page <? 0.25)%Q;
  lf_spacing :
    Line.spacing_above l =
    match prev_y1 with
    | Some prev_y1 => (bbox_1 (Line.bbox l) - prev_y1)%Q
    | None => 0%Q
    end;
  lf_density : Line.block_density l = Z.of_nat (length (Block.lines block))
}.

(** The bottom of the last line of [ls], or [prev] when there is none. *)
Definition last_y1 (prev : option Q) (ls : list Line.t) : option Q :=
  match last ls with
  | Some l => Some (bbox_3 (Line.bbox l))
  | None => prev
  end.

(** Every line of [ls] has, as [spacing_above], its distance from the line
    before it, the first one from [prev], or 0 without it. *)
Fixpoint spaced_from (prev : option Q) (ls : list Line.t) : Prop :=
  match ls with
  | [] => True
  | l :: ls' =>
      Line.spacing_above l =
        match prev with
        | Some prev_y1 => (bbox_1 (Line.bbox l) - prev_y1)%Q
        | None => 0%Q
        end
      /\ spaced_from (Some (bbox_3 (Line.bbox l))) ls'
  end.

(** What the loop over the spans of a raw line keeps true. *)
Definition acc_inv (nfkc : string -> string) (spans : list Span.t)
    (acc : line_acc) : Prop :=
  line_text acc = spaced (line_spans_details acc)
  /\ Forall (fun s => exists raw, raw ∈ spans /\ cleaned nfkc raw s)
       (line_spans_details acc)
  /\ match line_box acc with
     | None => line_spans_details acc = []
     | Some box => union_box box (line_spans_details acc)
     end.

(** The line [l] was built on [page], numbered [page_num], from a raw line
    of one of its text blocks. *)
Definition line_of_page (nfkc : string -> string) (page_num : Z) (page : Page.t)
    (l : Line.t) : Prop :=
  exists block spans prev_y1,
    block ∈ Page.blocks page /\ Block.type block = 0
    /\ spans ∈ Block.lines block
    /\ line_facts nfkc page_num page block prev_y1 spans l.

(** What the loops over the blocks and lines of a page keep true of
    [(current_page_lines, prev_y1)]. *)
Definition page_inv (nfkc : string -> string) (page_num : Z) (page : Page.t)
    (st : list Line.t * option Q) : Prop :=
  Forall (line_of_page nfkc page_num page) (fst st)
  /\ spaced_from None (fst st)
  /\ snd st = last_y1 None (fst st).

(** [per] holds the lines of each of [pages], numbered from [page_num]. *)
Fixpoint pages_lines (nfkc : string -> string) (page_num : Z) (pages : list Page.t)
    (per : list (list Line.t)) : Prop :=
  match pages, per with
  | [], [] => True
  | page :: pages', ls :: per' =>
      page_lines nfkc page_num page = Some ls
      /\ pages_lines nfkc (page_num + 1) pages' per'
  | _, _ => False
  end.

(** Every line of [ls] has, as [spacing_above], its distance from the line
    before it when that line is on its page, and 0 otherwise; [prev] is
    the line before the first. *)
Fixpoint doc_spaced (prev : option Line.t) (ls : list Line.t) : Prop :=
  match ls with
  | [] => True
  | l :: ls' =>
      Line.spacing_above l =
        match prev with
        | Some a =>
            if decide (Line.page a = Line.page l)
            then (bbox_1 (Line.bbox l) - bbox_3 (Line.bbox a))%Q else 0%Q
        | None => 0%Q
        end
      /\ doc_spaced (Some l) ls'
  end.

(** The document without its non-text blocks. *)
Definition text_blocks_only (doc : Document) : Document :=
  mkDocument
    ((fun page =>
        Page.mk (filter (fun block => Block.type block = 0) (Page.blocks page))
          (Page.height page) (Page.width page)) <$> pages doc)
    (document_title doc).

(** ** Sample raw documents *)

Definition raw_span (text : string) (size : Q) (flags : Z) (box : bbox) : Span.t :=
  Span.mk text "Helvetica" size flags box.

(** A title, an image block, a paragraph line of four raw spans of which
    two are dropped, a footer line and a line that is too short; then a
    second page with one line. *)
Definition raw_report : Document :=
  mkDocument
    [ Page.mk
        [ Block.mk 0 [ [raw_span "  Annual Report 2024 " 24.004 4 (150, 100, 450, 124)%Q] ];
          Block.mk 1 [ [raw_span "caption inside an image" 9 0 (72, 130, 300, 139)%Q] ];
          Block.mk 0
            [ [ raw_span "Introduction" 12 0 (72, 200, 150, 212)%Q;
                raw_span "-----" 12 0 (155, 200, 180, 212)%Q;
                raw_span ")" 12 0 (182, 200, 185, 212)%Q;
                raw_span "of the report " 12.5 0 (190, 198, 300, 214)%Q ];
              [ raw_span "page 1" 9 0 (280, 760, 320, 772)%Q ];
              [ raw_span "ab" 12 0 (72, 230, 90, 242)%Q ] ] ]
        800 600;
      Page.mk
        [ Block.mk 0 [ [raw_span "Second page line" 12 0 (72, 150, 300, 162)%Q] ] ]
        800 600 ]
    (Some "Report").

(** A first page with a line and a second page whose media box has no
    width. *)
Definition raw_zero_width : Document :=
  mkDocument
    [ Page.mk [ Block.mk 0 [ [raw_span "First page line" 12 0 (72, 150, 300, 162)%Q] ] ]
        800 600;
      Page.mk [ Block.mk 0 [ [raw_span "Second page line" 12 0 (72, 150, 300, 162)%Q] ] ]
        800 0 ]
    None.

(** ** Notions used to state further properties of the classifier *)

(** The entry [e] is what the loop over the lines builds from [line]: the
    line passes the checks before scoring, scores 80 or more, gets the level
    of [e], and differs from the title. *)
Definition accepted_line (heading_size_map : gmap string Q) (body_text_size : Q)
    (title : string) (line : Line.t) (e : Entry.t) : Prop :=
  e = entry_of (Entry.level e) line
  /\ assign_level heading_size_map (avg_size_of (Line.spans line))
       (compute_heading_score line heading_size_map body_text_size)
     = Some (Entry.level e)
  /\ 80 <= compute_heading_score line heading_size_map body_text_size
  /\ Line.block_density line <= 5
  /\ 2 <= count_alnum (Line.text line)
  /\ 3 <= len (Line.text line)
  /\ Line.text line ≠ title.

(** The title candidate passes the check on its text. *)
Definition eligible (candidate : list Line.t) : bool :=
  let text := join " " (Line.text <$> candidate) in
  negb ((count_alnum text <? 3) || (len text <? 5)).

(** [first_page_lines] of [identify_headings]. *)
Definition first_page_lines (lines : list Line.t) : list Line.t :=
  sorted (fun a b => (bbox_1 (Line.bbox a) <? bbox_1 (Line.bbox b))%Q)
    (filter (fun line => Line.page line = 1) lines).


(** Body text, then a large line that is neither bold nor centered in a
    block of four lines, and a heading at 15 points. *)
Definition doc_plain_large : list Line.t :=
  (body_line 1 <$> [100; 112; 124; 136; 148]%Q)
  ++ [ sample_line "Large plain line" 2 100 20 0 false 0 4;
       heading_line "Appendix" 2 500 15 ].

(** The text of a title candidate. *)
Definition title_text (candidate : list Line.t) : string :=
  join " " (Line.text <$> candidate).

(** * Properties *)

(** ** Comparisons on [Q] *)

Lemma Qltb_lt (x y : Q) : (x <? y)%Q = true <-> (x < y)%Q.
Proof.
  unfold Qltb. rewrite negb_true_iff, <- not_true_iff_false, Qle_bool_iff.
  split; [apply Qnot_le_lt | apply Qlt_not_le].
Qed.

Lemma Qltb_ge (x y : Q) : (x <? y)%Q = false <-> (y <= x)%Q.
Proof.
  unfold Qltb. rewrite negb_false_iff. apply Qle_bool_iff.
Qed.

(** ** Lists *)

Lemma StronglySorted_sublist {A} (R : A -> A -> Prop) (l k : list A) :
  l `sublist_of` k -> StronglySorted R k -> StronglySorted R l.
Proof.
  induction 1 as [|x l k Hsub IH|x l k Hsub IH]; intros Hs.
  - constructor.
  - apply StronglySorted_inv in Hs as [Hs Hx]. constructor; [by apply IH|].
    rewrite Forall_forall in Hx. apply Forall_forall. intros y Hy.
    apply Hx. by eapply elem_of_sublist.
  - apply StronglySorted_inv in Hs as [Hs _]. by apply IH.
Qed.

Lemma StronglySorted_adjacent {A} (R : A -> A -> Prop) (l : list A) (i : nat) (a b : A) :
  StronglySorted R l -> l !! i = Some a -> l !! S i = Some b -> R a b.
Proof.
  intros Hs. revert i. induction Hs as [|x l Hs IH Hx]; intros i Ha Hb; [done|].
  destruct i as [|i]; simpl in *.
  - injection Ha as <-. rewrite Forall_forall in Hx. apply Hx.
    by eapply list_elem_of_lookup_2.
  - by eapply IH.
Qed.

Lemma StronglySorted_lookup {A} (R : A -> A -> Prop) (l : list A) (i j : nat) (a b : A) :
  StronglySorted R l -> (i < j)%nat -> l !! i = Some a -> l !! j = Some b -> R a b.
Proof.
  intros Hs. revert i j. induction Hs as [|x l Hs IH Hx]; intros i j Hij Ha Hb; [done|].
  destruct j as [|j]; [lia|]. destruct i as [|i]; simpl in *.
  - injection Ha as <-. rewrite Forall_forall in Hx. apply Hx.
    by eapply list_elem_of_lookup_2.
  - eapply (IH i j); [lia|done..].
Qed.

Lemma filter_sublist_mono {A} (P : A -> Prop) `{!forall x, Decision (P x)}
    (l k : list A) :
  l `sublist_of` k -> filter P l `sublist_of` filter P k.
Proof.
  induction 1 as [|x l k Hsub IH|x l k Hsub IH]; [done| |].
  - rewrite !filter_cons. destruct (decide (P x)); [by constructor|done].
  - rewrite filter_cons. destruct (decide (P x)); [by constructor|done].
Qed.

(** ** The stable sort *)

Section sorted.
Context {A : Type} (lt : A -> A -> bool).

Lemma insert_sorted_Permutation (x : A) (l : list A) :
  insert_sorted lt x l ≡ₚ x :: l.
Proof.
  induction l as [|y l IH]; simpl; [done|].
  destruct (lt y x); [|done].
  rewrite IH. apply Permutation_swap.
Qed.

Lemma sorted_Permutation (l : list A) : sorted lt l ≡ₚ l.
Proof.
  induction l as [|x l IH]; simpl; [done|].
  unfold sorted in *. simpl. rewrite insert_sorted_Permutation. by rewrite IH.
Qed.

Lemma sorted_length (l : list A) : length (sorted lt l) = length l.
Proof. by rewrite sorted_Permutation. Qed.

(** The keys on which the comparison is an order. *)
Variable D : A -> Prop.
Hypothesis lt_asym : forall a b, D a -> D b -> lt a b = true -> lt b a = false.
Hypothesis le_trans :
  forall a b c, D a -> D b -> D c -> le_of lt a b -> le_of lt b c -> le_of lt a c.

Lemma insert_sorted_StronglySorted (x : A) (l : list A) :
  D x -> Forall D l ->
  StronglySorted (le_of lt) l -> StronglySorted (le_of lt) (insert_sorted lt x l).
Proof.
  intros Hx Hl Hs. induction Hs as [|y l Hs IH Hy]; simpl.
  - repeat constructor.
  - apply Forall_cons in Hl as [Dy Hl].
    destruct (lt y x) eqn:E.
    + constructor; [by apply IH|].
      rewrite insert_sorted_Permutation. constructor; [|done].
      by apply lt_asym.
    + constructor; [by constructor|].
      constructor; [done|].
      rewrite Forall_forall in Hy, Hl. apply Forall_forall. intros z Hz.
      apply (le_trans x y z); auto.
Qed.

Lemma sorted_StronglySorted (l : list A) :
  Forall D l -> StronglySorted (le_of lt) (sorted lt l).
Proof.
  induction 1 as [|x l Hx Hl IH]; [constructor|].
  unfold sorted in *. simpl. apply insert_sorted_StronglySorted; auto.
  fold (sorted lt l). by rewrite sorted_Permutation.
Qed.

End sorted.

Section sorted_stable.
Context {A : Type} (lt : A -> A -> bool).
Context (P : A -> Prop) `{!forall x, Decision (P x)}.

(** Stability: elements that the order does not separate keep their
    relative order. *)
Hypothesis P_class : forall a b, P a -> P b -> lt a b = false.

Lemma insert_sorted_filter (x : A) (l : list A) :
  filter P (insert_sorted lt x l) = filter P (x :: l).
Proof.
  induction l as [|y l IH]; simpl; [done|].
  destruct (lt y x) eqn:E; [|done].
  rewrite filter_cons, IH, !filter_cons.
  destruct (decide (P y)) as [Py|]; [|done].
  destruct (decide (P x)) as [Px|]; [|done].
  rewrite P_class in E; done.
Qed.

Lemma sorted_stable (l : list A) : filter P (sorted lt l) = filter P l.
Proof.
  induction l as [|x l IH]; [done|].
  unfold sorted in *. simpl. rewrite insert_sorted_filter, !filter_cons.
  by rewrite IH.
Qed.

End sorted_stable.

(** ** Pattern matching *)

Lemma append_nil_l (b : string) : "" +:+ b = b.
Proof. reflexivity. Qed.

Lemma append_cons (c : ascii) (a b : string) :
  String c a +:+ b = String c (a +:+ b).
Proof. reflexivity. Qed.

Lemma append_assoc (a b c : string) : (a +:+ b) +:+ c = a +:+ (b +:+ c).
Proof.
  induction a as [|x a IH]; [done|]. by rewrite !append_cons, IH.
Qed.

Lemma append_nil_r (a : string) : a +:+ "" = a.
Proof. induction a as [|x a IH]; [done|]. by rewrite append_cons, IH. Qed.

Lemma append_eq_nil (a b : string) : a +:+ b = "" -> a = "" /\ b = "".
Proof. destruct a; [done|]. rewrite append_cons. discriminate. Qed.

Lemma nullable_matches (r : regex) (start : bool) (rest : string) :
  nullable r start rest = true <-> matches r start "" rest.
Proof.
  split.
  - revert start rest. induction r; simpl; intros start rest H; try done.
    + constructor.
    + subst. constructor.
    + by constructor.
    + apply andb_true_iff in H as [H1 H2].
      change (matches (RSeq r1 r2) start ("" +:+ "") rest).
      constructor; [by apply IHr1|]. rewrite andb_true_r. by apply IHr2.
    + apply orb_true_iff in H as [H|H]; [apply m_alt_l|apply m_alt_r]; auto.
    + constructor.
  - intros H. remember EmptyString as w eqn:Hw.
    induction H; simpl; try done.
    + apply append_eq_nil in Hw as [-> ->]. rewrite append_nil_l in *.
      simpl in *. rewrite andb_true_r in *. rewrite IHmatches1, IHmatches2; done.
    + by rewrite IHmatches.
    + rewrite IHmatches by done. apply orb_true_r.
Qed.

Lemma deriv_matches (r : regex) (start : bool) (c : ascii) (w rest : string) :
  matches (deriv r start c (w +:+ rest)) false w rest <->
  matches r start (String c w) rest.
Proof.
  split.
  - revert start w rest. induction r; simpl; intros start w rest H;
      try (by inversion H).
    + destruct (isdecimal c) eqn:E; inversion H; subst. by constructor.
    + destruct (isspace c) eqn:E; inversion H; subst. by constructor.
    + destruct (Ascii.eqb_spec c c0) as [->|]; inversion H; subst. constructor.
    + inversion H as [| | | | | | | ? ? ? ? ? H'|? ? ? ? ? H'| |]; subst.
      * inversion H' as [| | | | | |? ? ? w1 w2 ? Ha Hb| | | |]; subst.
        rewrite append_assoc in Ha. apply IHr1 in Ha.
        change (String c (w1 +:+ w2)) with (String c w1 +:+ w2).
        constructor; [done|]. simpl. by rewrite andb_false_r.
      * destruct (nullable r1 start (String c (w +:+ rest))) eqn:E; [|by inversion H'].
        apply nullable_matches in E. apply IHr2 in H'.
        change (String c w) with ("" +:+ String c w).
        constructor; [done|]. by rewrite andb_true_r.
    + inversion H; subst; [apply m_alt_l|apply m_alt_r]; auto.
    + inversion H as [| | | | | |? ? ? w1 w2 ? Ha Hb| | | |]; subst.
      rewrite append_assoc in Ha. apply IHr in Ha.
      change (String c (w1 +:+ w2)) with (String c w1 +:+ w2).
      by constructor.
  - intros H. remember (String c w) as cw eqn:Hcw.
    revert w Hcw. induction H; intros w' Hcw; simpl; try done.
    + injection Hcw as -> <-. rewrite H. constructor.
    + injection Hcw as -> <-. rewrite H. constructor.
    + injection Hcw as -> <-. rewrite Ascii.eqb_refl. constructor.
    + destruct w1 as [|c1 w1].
      * rewrite append_nil_l in Hcw. subst w2. apply m_alt_r.
        apply nullable_matches in H. rewrite append_cons in H. rewrite H.
        simpl in *. rewrite andb_true_r in *. by apply IHmatches2.
      * rewrite append_cons in Hcw. injection Hcw as -> <-. apply m_alt_l.
        simpl in *. rewrite andb_false_r in *. rewrite append_assoc.
        constructor; [by apply IHmatches1|done].
    + apply m_alt_l. by apply IHmatches.
    + apply m_alt_r. by apply IHmatches.
    + rewrite append_cons in Hcw. injection Hcw as -> <-. rewrite append_assoc.
      constructor; [by apply IHmatches1|done].
Qed.

(** [re_match_from] finds a match exactly when some prefix of the text
    matches the pattern. *)
Lemma re_match_from_spec (r : regex) (start : bool) (s : string) :
  re_match_from r start s = true <->
  exists w rest, s = w +:+ rest /\ matches r start w rest.
Proof.
  revert r start. induction s as [|c s IH]; intros r start; simpl.
  - rewrite orb_false_r, nullable_matches. split.
    + intros H. by exists "", "".
    + intros (w & rest & Hs & H). symmetry in Hs.
      apply append_eq_nil in Hs as [-> ->]. done.
  - rewrite orb_true_iff, nullable_matches, IH. split.
    + intros [H|(w & rest & -> & H)].
      * by exists "", (String c s).
      * exists (String c w), rest. split; [done|]. by apply deriv_matches.
    + intros (w & rest & Hs & H). destruct w as [|c' w].
      * rewrite append_nil_l in Hs. subst rest. by left.
      * rewrite append_cons in Hs. injection Hs as <- ->.
        right. exists w, rest. split; [done|]. by apply deriv_matches.
Qed.

Lemma join_dotted (g : string) (gs : list string) :
  join "." (g :: gs) = g +:+ dotted gs.
Proof.
  revert g. induction gs as [|g' gs IH]; intros g.
  - simpl. by rewrite append_nil_r.
  - change (join "." (g :: g' :: gs)) with (g +:+ "." +:+ join "." (g' :: gs)).
    by rewrite (IH g').
Qed.

Lemma matches_digit_inv (start : bool) (w rest : string) :
  matches RDigit start w rest -> exists c, w = String c "" /\ isdecimal c = true.
Proof. inversion 1; subst. by eexists. Qed.

Lemma matches_space_inv (start : bool) (w rest : string) :
  matches RSpace start w rest -> exists c, w = String c "" /\ isspace c = true.
Proof. inversion 1; subst. by eexists. Qed.

Lemma matches_char_inv (start : bool) (d : ascii) (w rest : string) :
  matches (RChar d) start w rest -> w = String d "".
Proof. by inversion 1. Qed.

Lemma matches_end_inv (start : bool) (w rest : string) :
  matches REnd start w rest -> w = "" /\ at_end rest = true.
Proof. by inversion 1. Qed.

Lemma matches_start_inv (start : bool) (w rest : string) :
  matches RStart start w rest -> w = "" /\ start = true.
Proof. by inversion 1. Qed.

Lemma matches_seq_inv (r1 r2 : regex) (start : bool) (w rest : string) :
  matches (RSeq r1 r2) start w rest ->
  exists w1 w2, w = w1 +:+ w2 /\ matches r1 start w1 (w2 +:+ rest)
                /\ matches r2 (start && is_empty w1) w2 rest.
Proof. inversion 1; subst. by eexists _, _. Qed.

Lemma matches_alt_inv (r1 r2 : regex) (start : bool) (w rest : string) :
  matches (RAlt r1 r2) start w rest ->
  matches r1 start w rest \/ matches r2 start w rest.
Proof. inversion 1; subst; auto. Qed.

Lemma matches_star_digits (start : bool) (w rest : string) :
  matches (RStar RDigit) start w rest <-> all_digits w = true.
Proof.
  split.
  - intros H. remember (RStar RDigit) as r eqn:Hr. induction H; try done.
    injection Hr as ->.
    apply matches_digit_inv in H as (d & [= -> ->] & Hd).
    rewrite append_cons, append_nil_l. simpl. rewrite Hd. by apply IHmatches2.
  - revert start. induction w as [|c w IH]; intros start H; [constructor|].
    simpl in H. apply andb_true_iff in H as [Hc Hw].
    change (String c w) with (String c "" +:+ w).
    constructor; [by constructor|by apply IH].
Qed.

Lemma matches_plus_digits (start : bool) (w rest : string) :
  matches (RPlus RDigit) start w rest <-> digit_group w.
Proof.
  unfold RPlus, digit_group. split.
  - intros (w1 & w2 & -> & (d & -> & Hd)%matches_digit_inv & Hb)%matches_seq_inv.
    apply matches_star_digits in Hb.
    rewrite append_cons, append_nil_l. split; [done|]. simpl. by rewrite Hd.
  - intros [Hne H]. destruct w as [|c w]; [done|].
    simpl in H. apply andb_true_iff in H as [Hc Hw].
    change (String c w) with (String c "" +:+ w).
    constructor; [by constructor|]. by apply matches_star_digits.
Qed.

Lemma matches_dotted (start : bool) (w rest : string) :
  matches (RStar (RSeq (RChar ".") (RPlus RDigit))) start w rest <->
  exists groups, Forall digit_group groups /\ w = dotted groups.
Proof.
  split.
  - intros H. remember (RStar (RSeq (RChar ".") (RPlus RDigit))) as r eqn:Hr.
    induction H; try done.
    + by exists [].
    + injection Hr as ->.
      destruct (IHmatches2 eq_refl) as (gs & Hgs & ->).
      apply matches_seq_inv in H as (wa & wb & Hw & ->%matches_char_inv & Hb).
      apply matches_plus_digits in Hb.
      exists (wb :: gs). split; [by constructor|]. simpl.
      by rewrite Hw, append_assoc.
  - intros (gs & Hgs & ->). revert start.
    induction Hgs as [|g gs Hg Hgs IH]; intros start; [constructor|]. simpl.
    rewrite append_cons, append_nil_l.
    change (String "." (g +:+ dotted gs)) with (String "." g +:+ dotted gs).
    constructor; [|apply IH].
    change (String "." g) with (String "." "" +:+ g).
    constructor; [constructor|]. by apply matches_plus_digits.
Qed.

Lemma matches_after_numbering (start : bool) (w rest : string) :
  matches (RAlt (RSeq (RChar ".") RSpace) (RAlt RSpace REnd)) start w rest ->
  after_numbering (w +:+ rest).
Proof.
  intros [H|[H|H]%matches_alt_inv]%matches_alt_inv.
  - apply matches_seq_inv in H
      as (wa & wb & -> & ->%matches_char_inv & (c & -> & Hc)%matches_space_inv).
    left. by eexists _, _.
  - apply matches_space_inv in H as (c & -> & Hc). right. left. by eexists _, _.
  - apply matches_end_inv in H as [-> H]. right. right. done.
Qed.

Lemma after_numbering_matches (start : bool) (s : string) :
  after_numbering s ->
  exists w rest, s = w +:+ rest
    /\ matches (RAlt (RSeq (RChar ".") RSpace) (RAlt RSpace REnd)) start w rest.
Proof.
  intros [(c & rest & -> & Hc)|[(c & rest & -> & Hc)|Hend]].
  - exists (String "." (String c "")), rest. split; [done|]. apply m_alt_l.
    change (String "." (String c "")) with (String "." "" +:+ String c "").
    constructor; [constructor|by constructor].
  - exists (String c ""), rest. split; [done|]. apply m_alt_r, m_alt_l.
    by constructor.
  - exists "", s. split; [done|]. apply m_alt_r, m_alt_r. by constructor.
Qed.

(** What [is_heading_numbered] accepts: digit groups joined by dots, then
    a dot and whitespace, or whitespace, or the end of the text. *)
Lemma is_heading_numbered_spec (text : string) :
  is_heading_numbered text = true <->
  exists groups rest,
    groups ≠ [] /\ Forall digit_group groups
    /\ text = join "." groups +:+ rest /\ after_numbering rest.
Proof.
  unfold is_heading_numbered, re_match. rewrite re_match_from_spec. split.
  - intros (w & rest & -> & H). unfold numbering_pattern in H.
    apply matches_seq_inv in H as (w0 & w' & -> & [-> _]%matches_start_inv & H).
    apply matches_seq_inv in H as (w1 & w'' & -> & H1%matches_plus_digits & H).
    apply matches_seq_inv in H as (w2 & w3 & -> & H2 & H3).
    apply matches_dotted in H2 as (gs & Hgs & ->).
    apply matches_after_numbering in H3.
    exists (w1 :: gs), (w3 +:+ rest). split; [done|]. split; [by constructor|].
    split; [|done]. by rewrite join_dotted, append_nil_l, !append_assoc.
  - intros (groups & rest & Hne & Hgs & -> & Hafter).
    destruct groups as [|g gs]; [done|]. apply Forall_cons in Hgs as [Hg Hgs].
    destruct (after_numbering_matches
                (true && is_empty "" && is_empty g && is_empty (dotted gs))
                rest Hafter) as (w3 & rest' & -> & H3).
    exists (g +:+ dotted gs +:+ w3), rest'. split.
    { by rewrite join_dotted, !append_assoc. }
    unfold numbering_pattern.
    change (g +:+ dotted gs +:+ w3) with ("" +:+ g +:+ dotted gs +:+ w3).
    constructor; [constructor|].
    constructor; [by apply matches_plus_digits|].
    constructor; [|done]. apply matches_dotted. by exists gs.
Qed.

Example is_heading_numbered_ex1 : is_heading_numbered "1. Introduction" = true.
Proof. reflexivity. Qed.
Example is_heading_numbered_ex2 : is_heading_numbered "1.1" = true.
Proof. reflexivity. Qed.
Example is_heading_numbered_ex3 : is_heading_numbered "2.3.4 " = true.
Proof. reflexivity. Qed.
Example is_heading_numbered_ex4 : is_heading_numbered "1." = false.
Proof. reflexivity. Qed.
Example is_heading_numbered_ex5 : is_heading_numbered "1.Introduction" = false.
Proof. reflexivity. Qed.
Example is_heading_numbered_ex6 : is_heading_numbered "12 apples" = true.
Proof. reflexivity. Qed.
Example is_heading_numbered_ex7 : is_heading_numbered "3.14abc" = false.
Proof. reflexivity. Qed.

(** ** The Numbered signal *)

(** The score of a line is the score of its other signals plus the points
    of the Numbered signal: changing the text, with its length on the same
    side of 80, changes the score by the difference of these points. *)
Lemma numbered_signal (line : Line.t) (text : string) (m : gmap string Q) (body : Q) :
  (len text <? 80) = (len (Line.text line) <? 80) ->
  compute_heading_score (with_text text line) m body - numbered_points text =
  compute_heading_score line m body - numbered_points (Line.text line).
Proof.
  intros Hshort. unfold compute_heading_score, numbered_points. simpl.
  rewrite Hshort.
  repeat (match goal with |- context [if ?b then _ else _] => destruct b end); lia.
Qed.

(** C1, at the inputs where the code departs from it. A numeric prefix
    followed by a dot counts as numbering only when whitespace follows the
    dot: "1." and "1.Introduction" are not numbered and get no points from
    the Numbered signal, while "1. Introduction" gets 25. *)
Theorem numbered_dot_needs_whitespace :
  is_heading_numbered "1." = false
  /\ is_heading_numbered "12." = false
  /\ is_heading_numbered "1.Introduction" = false
  /\ is_heading_numbered "1. Introduction" = true
  /\ numbered_points "1.Introduction" = 0
  /\ forall m body,
       let line := heading_line "1. Introduction" 2 100 20 in
       compute_heading_score (with_text "1.Introduction" line) m body + 25 =
       compute_heading_score line m body.
Proof.
  repeat split; try reflexivity.
  intros m body line.
  pose proof (numbered_signal line "1.Introduction" m body eq_refl) as H.
  change (numbered_points "1.Introduction") with 0 in H.
  change (numbered_points (Line.text line)) with 25 in H.
  lia.
Qed.

(** ** The body text size *)

Lemma median_is_Some (data : list Q) : data ≠ [] -> is_Some (median data).
Proof.
  intros Hne. unfold median.
  pose proof (sorted_length Qltb data) as Hlen.
  set (s := sorted Qltb data) in *.
  assert (Hpos : (0 < length s)%nat).
  { rewrite Hlen. destruct data; [done|simpl; lia]. }
  destruct (Nat.eqb_spec (length s) 0) as [?|_]; [lia|].
  destruct (Nat.eqb_spec (length s mod 2) 1) as [Hodd|Heven].
  - apply lookup_lt_is_Some. apply Nat.Div0.div_lt_upper_bound. lia.
  - assert (Hmod : (length s mod 2 = 0)%nat).
    { pose proof (Nat.mod_upper_bound (length s) 2). lia. }
    pose proof (Nat.div_mod_eq (length s) 2) as Hdiv.
    destruct (lookup_lt_is_Some_2 s (length s / 2 - 1)) as [a ->]; [lia|].
    destruct (lookup_lt_is_Some_2 s (length s / 2)) as [b ->]; [lia|].
    by eexists.
Qed.














(** ** The heading sizes *)

Lemma Qgt_asym (a b : Q) : (b <? a)%Q = true -> (a <? b)%Q = false.
Proof. rewrite Qltb_lt, Qltb_ge. apply Qlt_le_weak. Qed.

Lemma Qge_trans (a b c : Q) :
  le_of (fun x y => (y <? x)%Q) a b -> le_of (fun x y => (y <? x)%Q) b c ->
  le_of (fun x y => (y <? x)%Q) a c.
Proof. unfold le_of. rewrite !Qltb_ge. intros H1 H2. by apply Qle_trans with b. Qed.

Lemma insert_sorted_pairwise {A} (lt : A -> A -> bool) (R : A -> A -> Prop)
    (x : A) (l : list A) :
  (forall a b, R a b -> R b a) ->
  Forall (R x) l -> StronglySorted R l -> StronglySorted R (insert_sorted lt x l).
Proof.
  intros Hsym Hx Hs. induction Hs as [|y l Hs IH Hy]; simpl.
  - repeat constructor.
  - apply Forall_cons in Hx as [Hxy Hx].
    destruct (lt y x).
    + constructor; [by apply IH|].
      rewrite insert_sorted_Permutation. constructor; [by apply Hsym|done].
    + constructor; [by constructor|]. by constructor.
Qed.

Lemma sorted_pairwise {A} (lt : A -> A -> bool) (R : A -> A -> Prop) (l : list A) :
  (forall a b, R a b -> R b a) ->
  StronglySorted R l -> StronglySorted R (sorted lt l).
Proof.
  intros Hsym. induction 1 as [|x l Hs IH Hx]; [constructor|].
  unfold sorted in *. simpl. apply insert_sorted_pairwise; [done| |done].
  fold (sorted lt l). by rewrite sorted_Permutation.
Qed.

Lemma distinct_sublist (xs : list Q) : distinct xs `sublist_of` xs.
Proof.
  induction xs as [|x xs IH]; [done|]. simpl. constructor.
  etrans; [apply sublist_filter|done].
Qed.

Lemma distinct_pairwise (xs : list Q) :
  StronglySorted (fun a b => ¬ (a == b)%Q) (distinct xs).
Proof.
  induction xs as [|x xs IH]; [constructor|]. simpl. constructor.
  - eapply StronglySorted_sublist; [apply sublist_filter|done].
  - apply Forall_forall. intros y [Hy _]%list_elem_of_filter.
    intros Heq%Qeq_bool_iff. congruence.
Qed.

Lemma distinct_complete (xs : list Q) (x : Q) :
  x ∈ xs -> exists c, c ∈ distinct xs /\ (c == x)%Q.
Proof.
  induction xs as [|y xs IH]; intros Hx; [by apply elem_of_nil in Hx|].
  simpl. apply elem_of_cons in Hx as [->|Hx].
  - exists y. split; [by left|reflexivity].
  - destruct (IH Hx) as (c & Hc & Hcx).
    destruct (Qeq_bool y c) eqn:E.
    + exists y. split; [by left|]. apply Qeq_bool_iff in E. by rewrite E.
    + exists c. split; [|done]. right. by apply list_elem_of_filter.
Qed.

(** The candidate heading sizes are strictly descending. *)
Lemma potential_heading_sizes_descending (sizes : list Q) (body : Q) :
  StronglySorted (fun a b => (b < a)%Q) (potential_heading_sizes sizes body).
Proof.
  unfold potential_heading_sizes.
  set (l := distinct _).
  assert (Hd : StronglySorted (fun a b => ¬ (a == b)%Q)
                 (sorted (fun a b => (b <? a)%Q) l)).
  { apply sorted_pairwise; [|apply distinct_pairwise].
    intros a b Hab Hba. apply Hab. by symmetry. }
  assert (Hs : StronglySorted (le_of (fun a b => (b <? a)%Q))
                 (sorted (fun a b => (b <? a)%Q) l)).
  { apply (sorted_StronglySorted _ (fun _ => True)).
    - intros a b _ _. apply Qgt_asym.
    - intros a b c _ _ _. apply Qge_trans.
    - by apply Forall_true. }
  induction Hs as [|x k Hs IH Hx]; [constructor|].
  apply StronglySorted_inv in Hd as [Hd Hdx].
  constructor; [by apply IH|].
  rewrite Forall_forall in Hx, Hdx. apply Forall_forall. intros y Hy.
  specialize (Hx y Hy). specialize (Hdx y Hy).
  unfold le_of in Hx. apply Qltb_ge in Hx.
  apply Qle_lteq in Hx as [Hlt|Heq]; [done|]. exfalso. apply Hdx. by symmetry.
Qed.

(** They are the sizes above 1.2 times the body size, each once. *)
Lemma potential_heading_sizes_elem (sizes : list Q) (body c : Q) :
  c ∈ potential_heading_sizes sizes body -> c ∈ sizes /\ (body * 1.2 < c)%Q.
Proof.
  unfold potential_heading_sizes. rewrite sorted_Permutation.
  intros Hc. eapply elem_of_sublist in Hc; [|apply distinct_sublist].
  apply list_elem_of_filter in Hc as [Hgt Hc]. split; [done|]. by apply Qltb_lt.
Qed.

Lemma potential_heading_sizes_complete (sizes : list Q) (body s : Q) :
  s ∈ sizes -> (body * 1.2 < s)%Q ->
  exists c, c ∈ potential_heading_sizes sizes body /\ (c == s)%Q.
Proof.
  intros Hs Hgt.
  destruct (distinct_complete
    (filter (fun s => (s >? body * 1.2)%Q = true) sizes) s) as (c & Hc & Hcs).
  { apply list_elem_of_filter. split; [by apply Qltb_lt|done]. }
  exists c. split; [|done]. unfold potential_heading_sizes.
  by rewrite sorted_Permutation.
Qed.

(** What the map holds under each level name. *)
Lemma heading_size_map_lookup (cands : list Q) :
  heading_size_map cands !! "H1" = cands !! 0%nat
  /\ heading_size_map cands !! "H2" =
     (if distinct_tier cands 1 then cands !! 1%nat else None)
  /\ heading_size_map cands !! "H3" =
     (if distinct_tier cands 2 then cands !! 2%nat else None)
  /\ heading_size_map cands !! "H4" =
     (if distinct_tier cands 3 then cands !! 3%nat else None).
Proof.
  assert (Hitem : forall k, distinct_tier cands k = true ->
            Some (item cands k) = cands !! k).
  { intros k. unfold distinct_tier, item. by destruct (cands !! k). }
  unfold heading_size_map.
  destruct (distinct_tier cands 1) eqn:E1, (distinct_tier cands 2) eqn:E2,
    (distinct_tier cands 3) eqn:E3; destruct cands as [|c0 cands];
    try done; repeat split;
    repeat (rewrite lookup_insert_ne by done);
    rewrite ?lookup_insert_eq, ?lookup_empty; try done; by apply Hitem.
Qed.

Lemma distinct_tier_spec (cands : list Q) (k : nat) :
  distinct_tier cands k = true <->
  exists c c0, cands !! k = Some c /\ cands !! 0%nat = Some c0 /\ (c < c0 * 0.95)%Q.
Proof.
  unfold distinct_tier. split.
  - destruct (cands !! k) as [c|], (cands !! 0%nat) as [c0|]; try done.
    intros H%Qltb_lt. by exists c, c0.
  - intros (c & c0 & -> & -> & H). by apply Qltb_lt.
Qed.


(** ** The H4 tier *)

Lemma reaches_agree (m1 m2 : gmap string Q) (k : string) (avg : Q) :
  m1 !! k = m2 !! k -> reaches m1 k avg = reaches m2 k avg.
Proof. unfold reaches. by intros ->. Qed.

(** C10. Two maps of heading sizes that agree on H1, H2 and H3 give every
    line the same score and the same level, the loop the same state, and the
    assembler the same result: the H4 entry is never read. *)
Theorem H4_never_read (m1 m2 : gmap string Q) :
  m1 !! "H1" = m2 !! "H1" -> m1 !! "H2" = m2 !! "H2" -> m1 !! "H3" = m2 !! "H3" ->
  (forall line body, compute_heading_score line m1 body = compute_heading_score line m2 body)
  /\ (forall avg score, assign_level m1 avg score = assign_level m2 avg score)
  /\ (forall body title lines,
        scan_lines m1 body title lines = scan_lines m2 body title lines)
  /\ (forall body title lines,
        outline_from m1 body title lines = outline_from m2 body title lines).
Proof.
  intros H1 H2 H3.
  assert (Hscore : forall line body,
    compute_heading_score line m1 body = compute_heading_score line m2 body).
  { intros line body. unfold compute_heading_score.
    by rewrite !(reaches_agree m1 m2) by done. }
  assert (Hlevel : forall avg score, assign_level m1 avg score = assign_level m2 avg score).
  { intros avg score. unfold assign_level.
    by rewrite !(reaches_agree m1 m2), H1, H2 by done. }
  assert (Hscan : forall body title lines,
    scan_lines m1 body title lines = scan_lines m2 body title lines).
  { intros body title lines. unfold scan_lines. generalize (mkScan [] ∅ ∅).
    induction lines as [|l lines IH]; intros st; [done|]. simpl.
    assert (scan_step m1 body title st l = scan_step m2 body title st l) as ->; [|done].
    unfold scan_step. by rewrite Hscore, Hlevel. }
  repeat split; try done.
  intros body title lines. unfold outline_from. by rewrite Hscan.
Qed.

(** ** The loop over the lines *)

Section scan.
Variables (heading_size_map : gmap string Q) (body_text_size : Q) (title : string).

Local Abbreviation step := (scan_step heading_size_map body_text_size title).

Lemma per_page_insert (m : gmap Z Z) (p q v : Z) :
  per_page (<[p := v]> m) q = if decide (p = q) then v else per_page m q.
Proof.
  unfold per_page. rewrite lookup_insert. by destruct (decide (p = q)).
Qed.

(** A step either leaves the state alone or appends one entry built from
    the line, whose page was below the cap and whose identity was new. *)
Lemma scan_step_cases (st : scan) (line : Line.t) :
  step st line = st
  \/ exists level,
       (level = "H1" \/ level = "H2" \/ level = "H3")
       /\ per_page (headings_per_page st) (Line.page line) <= 8
       /\ Line.text line ≠ title
       /\ (heading_identifier (entry_of level line) ∉ seen_headings st)
       /\ step st line =
          mkScan (scan_outline st ++ [entry_of level line])
            ({[ heading_identifier (entry_of level line) ]} ∪ seen_headings st)
            (<[Line.page line :=
                 per_page (headings_per_page st) (Line.page line) + 1]>
               (headings_per_page st)).
Proof.
  unfold scan_step.
  destruct (_ || _); [by left|].
  destruct (per_page _ _ >? 8) eqn:Hcap; [by left|].
  destruct (Line.block_density line >? 5); [by left|].
  destruct (_ <? 80); [by left|].
  destruct (assign_level _ _ _) as [level|] eqn:Hlevel; [|by left].
  case_bool_decide as Htitle; [|by left].
  case_bool_decide as Hseen; [|by left].
  right. exists level. repeat split; try done.
  - unfold assign_level in Hlevel.
    repeat (destruct (_ && _) in Hlevel; [naive_solver|]). done.
  - rewrite Z.gtb_ltb in Hcap. apply Z.ltb_ge in Hcap. done.
Qed.

Lemma scan_step_inv (lines : list Line.t) (st : scan) (line : Line.t) :
  line ∈ lines -> scan_inv title lines st -> scan_inv title lines (step st line).
Proof.
  intros Hin [Hcount Hcap Hseen Hnodup Htitle Hsrc].
  destruct (scan_step_cases st line)
    as [->|(level & Hlevel & Hle & Hne & Hnew & ->)]; [done|].
  split; simpl.
  - intros p. rewrite per_page_insert. unfold on_page.
    rewrite filter_app, length_app, filter_cons, filter_nil. simpl.
    destruct (decide (Line.page line = p)) as [->|Hp].
    + rewrite Hcount. unfold on_page. simpl. lia.
    + rewrite Hcount. unfold on_page. simpl. lia.
  - intros p. rewrite per_page_insert.
    destruct (decide (Line.page line = p)); [lia|apply Hcap].
  - intros id. rewrite fmap_app, elem_of_app, elem_of_union, elem_of_singleton.
    rewrite Hseen. simpl. rewrite list_elem_of_singleton. tauto.
  - rewrite fmap_app. simpl. apply NoDup_app. split; [done|]. split.
    + intros id Hid. rewrite list_elem_of_singleton. intros ->.
      apply Hnew, Hseen, Hid.
    + apply NoDup_singleton.
  - apply Forall_app. split; [done|]. by repeat constructor.
  - apply Forall_app. split; [done|]. repeat constructor.
    exists level, line. done.
Qed.

Lemma scan_init_inv (lines : list Line.t) : scan_inv title lines (mkScan [] ∅ ∅).
Proof.
  split; simpl; try done.
  - intros id. set_solver.
  - constructor.
Qed.

Lemma scan_lines_inv_gen (lines ls : list Line.t) (st : scan) :
  ls ⊆ lines -> scan_inv title lines st -> scan_inv title lines (foldl step st ls).
Proof.
  revert st. induction ls as [|l ls IH]; intros st Hsub Hst; [done|].
  simpl. apply IH; [set_solver|]. apply scan_step_inv; [set_solver|done].
Qed.

Lemma scan_lines_inv (lines : list Line.t) :
  scan_inv title lines (scan_lines heading_size_map body_text_size title lines).
Proof. apply scan_lines_inv_gen; [done|apply scan_init_inv]. Qed.

Lemma scan_lines_snoc (before : list Line.t) (line : Line.t) :
  scan_lines heading_size_map body_text_size title (before ++ [line]) =
  step (scan_lines heading_size_map body_text_size title before) line.
Proof. unfold scan_lines. apply foldl_snoc. Qed.

(** Once the counter of a page is above 8 a line of that page changes
    nothing, whatever its score. *)
Lemma scan_step_capped (st : scan) (line : Line.t) :
  8 < per_page (headings_per_page st) (Line.page line) -> step st line = st.
Proof.
  intros H. unfold scan_step.
  destruct (_ || _); [done|].
  apply Z.gtb_lt in H. by rewrite H.
Qed.

End scan.

(** ** Sorting the outline *)

Lemma key_lt_asym (a b : Entry.t) : key_lt a b = true -> key_lt b a = false.
Proof.
  unfold key_lt. intros H.
  apply orb_true_iff in H as [H|H].
  - apply Z.ltb_lt in H. apply orb_false_iff. split; [apply Z.ltb_ge; lia|].
    apply andb_false_iff. left. apply Z.eqb_neq. lia.
  - apply andb_true_iff in H as [Hp H]. apply Z.eqb_eq in Hp.
    apply orb_false_iff. split; [apply Z.ltb_ge; lia|].
    apply andb_false_iff. right.
    destruct (Entry.y0 a) as [ya|], (Entry.y0 b) as [yb|]; try done.
    apply Qltb_lt in H. apply Qltb_ge. by apply Qlt_le_weak.
Qed.

Lemma key_le_reading (a b : Entry.t) :
  is_Some (Entry.y0 a) -> is_Some (Entry.y0 b) ->
  le_of key_lt a b <-> reading_le a b.
Proof.
  intros [ya Ha] [yb Hb]. unfold le_of, key_lt, reading_le. rewrite Ha, Hb.
  rewrite orb_false_iff, andb_false_iff, Z.ltb_ge, Z.eqb_neq, Qltb_ge.
  split.
  - intros [Hle [Hne|Hy]]; [left; lia|].
    destruct (decide (Entry.page a = Entry.page b)); [|left; lia].
    right. split; [done|]. by exists ya, yb.
  - intros [Hlt|[Heq (ya' & yb' & [= <-] & [= <-] & Hy)]]; [split; [lia|left; lia]|].
    split; [lia|by right].
Qed.

Lemma reading_le_trans (a b c : Entry.t) :
  reading_le a b -> reading_le b c -> reading_le a c.
Proof.
  unfold reading_le.
  intros [H1|[H1 (ya & yb & Ha & Hb & Hab)]] [H2|[H2 (yb' & yc & Hb' & Hc & Hbc)]];
    try (left; lia).
  right. split; [lia|]. exists ya, yc. repeat split; try done.
  rewrite Hb in Hb'. injection Hb' as <-. by apply Qle_trans with yb.
Qed.

Lemma sorted_key_lt_reading (l : list Entry.t) :
  Forall (fun e => is_Some (Entry.y0 e)) l ->
  StronglySorted reading_le (sorted key_lt l).
Proof.
  intros Hl.
  pose proof (sorted_StronglySorted key_lt (fun e => is_Some (Entry.y0 e))) as Hs.
  assert (Hperm : Forall (fun e => is_Some (Entry.y0 e)) (sorted key_lt l))
    by by rewrite sorted_Permutation.
  specialize (Hs (fun a b _ _ => key_lt_asym a b)).
  assert (Htr : forall a b c : Entry.t, is_Some (Entry.y0 a) -> is_Some (Entry.y0 b) ->
    is_Some (Entry.y0 c) -> le_of key_lt a b -> le_of key_lt b c -> le_of key_lt a c).
  { intros a b c Ha Hb Hc. rewrite !key_le_reading by done. apply reading_le_trans. }
  specialize (Hs Htr l Hl). clear Htr.
  induction Hs as [|x k Hs IH Hx]; [constructor|].
  apply Forall_cons in Hperm as [Dx Dk].
  constructor; [by apply IH|].
  rewrite Forall_forall in Hx, Dk. apply Forall_forall. intros y Hy.
  apply key_le_reading; auto.
Qed.

(** ** From the loop to the result *)

Lemma on_page_del_y0 (p : Z) (l : list Entry.t) :
  on_page p (del_y0 <$> l) = del_y0 <$> on_page p l.
Proof.
  unfold on_page. induction l as [|e l IH]; [done|].
  rewrite fmap_cons, !filter_cons. simpl.
  destruct (decide (Entry.page e = p)); by rewrite IH.
Qed.

Lemma heading_identifier_del_y0 (l : list Entry.t) :
  heading_identifier <$> (del_y0 <$> l) = heading_identifier <$> l.
Proof. rewrite <- list_fmap_compose. by apply list_fmap_ext. Qed.

Lemma fallback_nil (title : string) : fallback title [] = mkDocumentOutline title [].
Proof.
  unfold fallback, promoted. rewrite (bool_decide_eq_true_2 ([] = [])) by done.
  by rewrite andb_false_r.
Qed.

Lemma fallback_sublist (title : string) (o : list Entry.t) :
  outline (fallback title o) `sublist_of` o.
Proof.
  unfold fallback. destruct (promoted title o); simpl; [apply sublist_filter|done].
Qed.

Lemma median_nil : median [] = None.
Proof. reflexivity. Qed.

Section assembler.
Variable nfkc : string -> string.

Lemma run_loop_no_sizes (lines : list Line.t) (pdf : Pdf) :
  all_font_sizes lines = [] -> run_loop nfkc lines pdf = None.
Proof. intros H. unfold run_loop, body_text_size. by rewrite H, median_nil. Qed.

Lemma identify_headings_assemble (lines : list Line.t) (pdf : Pdf) :
  identify_headings nfkc lines pdf =
  '(title, outline) ← assemble nfkc lines pdf; Some (fallback title outline).
Proof.
  unfold identify_headings, assemble.
  destruct lines as [|l lines]; [by rewrite <- fallback_nil|].
  destruct (all_font_sizes (l :: lines)); [simpl; by rewrite fallback_nil|].
  by destruct (run_loop nfkc (l :: lines) pdf) as [[t o]|].
Qed.

Lemma assemble_inv (lines : list Line.t) (pdf : Pdf) (t : string) (o : list Entry.t) :
  assemble nfkc lines pdf = Some (t, o) ->
  o = del_y0 <$> sorted key_lt (accepted nfkc lines pdf)
  /\ exists st, scan_outline st = accepted nfkc lines pdf /\ scan_inv t lines st.
Proof.
  unfold assemble, accepted. intros H.
  destruct lines as [|l lines].
  { injection H as <- <-. rewrite run_loop_no_sizes by done.
    split; [done|]. eexists. split; [|apply scan_init_inv]. done. }
  destruct (all_font_sizes (l :: lines)) eqn:Hsizes.
  { injection H as <- <-. rewrite run_loop_no_sizes by done.
    split; [done|]. eexists. split; [|apply scan_init_inv]. done. }
  destruct (run_loop nfkc (l :: lines) pdf) as [[t' raw]|] eqn:Hrun; [|done].
  simpl in H. injection H as -> <-. split; [done|].
  unfold run_loop in Hrun.
  destruct (body_text_size _) as [body|]; [|done]. simpl in Hrun.
  destruct (detect_title _ _ _ _) as [t''|]; [|done]. simpl in Hrun.
  injection Hrun as -> <-. eexists. split; [done|]. apply scan_lines_inv.
Qed.

Lemma identify_headings_inv (lines : list Line.t) (pdf : Pdf) (r : DocumentOutline) :
  identify_headings nfkc lines pdf = Some r ->
  exists t o, assemble nfkc lines pdf = Some (t, o) /\ r = fallback t o.
Proof.
  rewrite identify_headings_assemble.
  destruct (assemble nfkc lines pdf) as [[t o]|]; [|done].
  simpl. intros [= <-]. by exists t, o.
Qed.

Lemma accepted_sources (lines : list Line.t) (pdf : Pdf) :
  Forall (fun e => exists level line,
    line ∈ lines /\ e = entry_of level line
    /\ (level = "H1" \/ level = "H2" \/ level = "H3")) (accepted nfkc lines pdf).
Proof.
  unfold accepted. destruct (run_loop nfkc lines pdf) as [[t raw]|] eqn:Hrun; [|done].
  unfold run_loop in Hrun.
  destruct (body_text_size _) as [body|]; [|done]. simpl in Hrun.
  destruct (detect_title _ _ _ _) as [t''|]; [|done]. simpl in Hrun.
  injection Hrun as -> <-. apply scan_lines_inv.
Qed.

End assembler.

Lemma filter_del_y0 (P : Entry.t -> Prop) `{!forall x, Decision (P x)}
    (l : list Entry.t) :
  (forall e, P (del_y0 e) <-> P e) ->
  filter P (del_y0 <$> l) = del_y0 <$> filter P l.
Proof.
  intros HP. induction l as [|e l IH]; [done|].
  rewrite fmap_cons, !filter_cons.
  destruct (decide (P (del_y0 e))) as [H1|H1], (decide (P e)) as [H2|H2];
    rewrite ?fmap_cons, IH; try done; pose proof (HP e); tauto.
Qed.

Lemma on_page_sublist (p : Z) (l k : list Entry.t) :
  l `sublist_of` k -> on_page p l `sublist_of` on_page p k.
Proof. apply filter_sublist_mono. Qed.

Lemma on_page_sorted (p : Z) (l : list Entry.t) :
  length (on_page p (sorted key_lt l)) = length (on_page p l).
Proof. unfold on_page. by rewrite sorted_Permutation. Qed.

(** The outline of the result, traced back to the headings accepted by the
    loop: it is the sorted list of them with some entries removed. *)
Lemma identify_headings_kept (nfkc : string -> string) (lines : list Line.t)
    (pdf : Pdf) (r : DocumentOutline) :
  identify_headings nfkc lines pdf = Some r ->
  exists kept,
    outline r = del_y0 <$> kept
    /\ kept `sublist_of` sorted key_lt (accepted nfkc lines pdf).
Proof.
  intros H. apply identify_headings_inv in H as (t & o & Hasm & ->).
  apply assemble_inv in Hasm as [-> _].
  unfold fallback. destruct (promoted _ _) as [entry|]; simpl.
  - eexists. split; [|apply sublist_filter with (P :=
      fun e => ¬ (Entry.text e = Entry.text entry ∧ Entry.page e = Entry.page entry))].
    apply filter_del_y0. by intros [].
  - by eexists.
Qed.

(** C5. No page has more than 9 entries in the returned outline, and the
    cap works in the order of the lines: when 9 headings of a page are
    recorded, a further line of that page leaves the state of the loop as it
    is, whatever the line is. *)
Theorem per_page_cap (nfkc : string -> string) (lines : list Line.t) (pdf : Pdf)
    (r : DocumentOutline) :
  identify_headings nfkc lines pdf = Some r ->
  (forall p, (length (on_page p (outline r)) <= 9)%nat)
  /\ (forall hmap body title before line,
        (9 <= length (on_page (Line.page line)
                        (scan_outline (scan_lines hmap body title before))))%nat ->
        scan_lines hmap body title (before ++ [line]) =
        scan_lines hmap body title before).
Proof.
  intros H. split.
  - intros p.
    pose proof H as (t & o & Hasm & _)%identify_headings_inv.
    apply assemble_inv in Hasm as [_ (st & Hst & Hinv)].
    apply identify_headings_kept in H as (kept & -> & Hsub).
    rewrite on_page_del_y0, length_fmap.
    apply (on_page_sublist p), sublist_length in Hsub.
    rewrite on_page_sorted, <- Hst in Hsub.
    pose proof (inv_count _ _ _ Hinv p) as Hc.
    pose proof (inv_cap _ _ _ Hinv p) as Hcap. clear -Hsub Hc Hcap. lia.
  - intros hmap body title before line Hfull.
    rewrite scan_lines_snoc. apply scan_step_capped.
    pose proof (scan_lines_inv hmap body title before) as Hinv.
    rewrite (inv_count _ _ _ Hinv). clear -Hfull. lia.
Qed.

(** A line whose level is assigned and whose identity was already seen
    changes nothing. *)
Lemma scan_step_seen (hmap : gmap string Q) (body : Q) (title : string)
    (st : scan) (line : Line.t) (level : string) :
  assign_level hmap (avg_size_of (Line.spans line))
    (compute_heading_score line hmap body) = Some level ->
  heading_identifier (entry_of level line) ∈ seen_headings st ->
  scan_step hmap body title st line = st.
Proof.
  intros Hlevel Hseen. unfold scan_step.
  repeat (match goal with |- context [if ?b then _ else _] => destruct b end; [done|]).
  rewrite Hlevel. case_bool_decide; [|done]. by case_bool_decide.
Qed.

(** C9. No two entries of the returned outline have the same identity
    (lower-cased and trimmed text, page, level); a line that resolves to an
    identity already accepted leaves the state of the loop as it is. *)
Theorem no_duplicate_headings (nfkc : string -> string) (lines : list Line.t)
    (pdf : Pdf) (r : DocumentOutline) :
  identify_headings nfkc lines pdf = Some r ->
  NoDup (heading_identifier <$> outline r)
  /\ (forall hmap body title before line level,
        assign_level hmap (avg_size_of (Line.spans line))
          (compute_heading_score line hmap body) = Some level ->
        heading_identifier (entry_of level line)
          ∈ heading_identifier <$> scan_outline (scan_lines hmap body title before) ->
        scan_lines hmap body title (before ++ [line]) =
        scan_lines hmap body title before).
Proof.
  intros H. split.
  - pose proof H as (t & o & Hasm & _)%identify_headings_inv.
    apply assemble_inv in Hasm as [_ (st & Hst & Hinv)].
    apply identify_headings_kept in H as (kept & -> & Hsub).
    rewrite heading_identifier_del_y0.
    eapply sublist_NoDup; [|by apply fmap_sublist].
    rewrite sorted_Permutation, <- Hst. apply Hinv.
  - intros hmap body title before line level Hlevel Hseen.
    rewrite scan_lines_snoc. eapply scan_step_seen; [done|].
    by apply (inv_seen _ _ _ (scan_lines_inv hmap body title before)).
Qed.

(** C2. No entry of the returned outline has the text of the final title
    on the page of the title: when the fallback promoted the first H1, no
    entry has its text on its page; in every other case no entry has the
    text of the title at all. *)
Theorem title_not_in_outline (nfkc : string -> string) (lines : list Line.t)
    (pdf : Pdf) (r : DocumentOutline) :
  identify_headings nfkc lines pdf = Some r ->
  exists title0 outline0,
    assemble nfkc lines pdf = Some (title0, outline0)
    /\ match promoted title0 outline0 with
       | Some entry =>
           title r = Entry.text entry
           /\ forall e, e ∈ outline r ->
                ¬ (Entry.text e = title r /\ Entry.page e = Entry.page entry)
       | None =>
           title r = title0
           /\ forall e, e ∈ outline r -> Entry.text e ≠ title r
       end.
Proof.
  intros (t & o & Hasm & ->)%identify_headings_inv.
  exists t, o. split; [done|].
  apply assemble_inv in Hasm as [-> (st & Hst & Hinv)].
  unfold fallback. destruct (promoted _ _) as [entry|]; simpl.
  - split; [done|]. intros e He. by apply list_elem_of_filter in He as [He _].
  - split; [done|]. intros e (e' & -> & He)%list_elem_of_fmap.
    rewrite sorted_Permutation, <- Hst in He.
    pose proof (inv_title _ _ _ Hinv) as Ht. rewrite Forall_forall in Ht.
    simpl. by apply Ht.
Qed.

(** C4. When the title is still "No Title Found" after assembly and
    sorting and the outline is not empty: with no H1 entry the title and the
    outline are returned as they are; otherwise the title is the text of the
    first H1 entry and the outline loses exactly the entries with that text
    on that entry's page. *)
Theorem fallback_promotes_first_H1 (nfkc : string -> string) (lines : list Line.t)
    (pdf : Pdf) (outline0 : list Entry.t) :
  assemble nfkc lines pdf = Some (No_Title_Found, outline0) ->
  outline0 ≠ [] ->
  exists r,
    identify_headings nfkc lines pdf = Some r
    /\ ((forall e, e ∈ outline0 -> Entry.level e ≠ "H1") ->
        title r = No_Title_Found /\ outline r = outline0)
    /\ (forall i h1,
          outline0 !! i = Some h1 -> Entry.level h1 = "H1" ->
          (forall j e, (j < i)%nat -> outline0 !! j = Some e -> Entry.level e ≠ "H1") ->
          title r = Entry.text h1
          /\ outline r =
             filter (fun e => ¬ (Entry.text e = Entry.text h1
                                 /\ Entry.page e = Entry.page h1)) outline0
          /\ forall e, e ∈ outline r <->
               e ∈ outline0
               /\ ¬ (Entry.text e = Entry.text h1 /\ Entry.page e = Entry.page h1)).
Proof.
  intros Hasm Hne. rewrite identify_headings_assemble, Hasm. simpl.
  eexists. split; [done|].
  unfold fallback, promoted.
  rewrite bool_decide_eq_true_2 by done.
  rewrite (bool_decide_eq_false_2 (outline0 = [])) by done. simpl.
  destruct (list_find _ outline0) as [[k h]|] eqn:Hfind; simpl.
  - apply list_find_Some in Hfind as (Hk & Hh & Hfirst). split.
    + intros Hno. exfalso. eapply Hno; [|done]. by eapply list_elem_of_lookup_2.
    + intros i h1 Hi Hh1 Hbefore.
      assert (i = k) as ->.
      { destruct (Nat.lt_trichotomy i k) as [Hlt|[->|Hlt]]; [|done|].
        - exfalso. by eapply Hfirst.
        - exfalso. by eapply Hbefore. }
      rewrite Hk in Hi. injection Hi as ->.
      split; [done|]. split; [done|].
      intros e. rewrite list_elem_of_filter. tauto.
  - apply list_find_None in Hfind. rewrite Forall_forall in Hfind. split; [done|].
    intros i h1 Hi Hh1 _. exfalso. eapply Hfind; [|done].
    by eapply list_elem_of_lookup_2.
Qed.

Lemma has_key_class (p : Z) (y : Q) (a b : Entry.t) :
  has_key p y a = true -> has_key p y b = true -> key_lt a b = false.
Proof.
  unfold has_key, key_lt. intros [Ha Hya]%andb_true_iff [Hb Hyb]%andb_true_iff.
  apply Z.eqb_eq in Ha, Hb. apply orb_false_iff. split; [apply Z.ltb_ge; lia|].
  apply andb_false_iff. right.
  destruct (Entry.y0 a) as [ya|], (Entry.y0 b) as [yb|]; try done.
  apply Qeq_bool_iff in Hya, Hyb. apply Qltb_ge. rewrite Hya, Hyb. apply Qle_refl.
Qed.

(** C7. The returned outline is in reading order: its entries come from
    headings accepted by the loop, each carrying the top y-coordinate of
    its line, and of two adjacent entries the first is on an earlier page or
    on the same page and not lower. The sort that puts them in this order
    keeps the order of the lines among headings with the same page and y-coordinate. *)
Theorem reading_order (nfkc : string -> string) (lines : list Line.t)
    (pdf : Pdf) (r : DocumentOutline) :
  identify_headings nfkc lines pdf = Some r ->
  exists kept,
    outline r = del_y0 <$> kept
    /\ kept `sublist_of` sorted key_lt (accepted nfkc lines pdf)
    /\ Forall (fun e => exists level line, line ∈ lines /\ e = entry_of level line) kept
    /\ (forall i a b, kept !! i = Some a -> kept !! S i = Some b -> reading_le a b)
    /\ sorted key_lt (accepted nfkc lines pdf) ≡ₚ accepted nfkc lines pdf
    /\ (forall p y,
          filter (fun e => has_key p y e = true)
            (sorted key_lt (accepted nfkc lines pdf)) =
          filter (fun e => has_key p y e = true) (accepted nfkc lines pdf)).
Proof.
  intros (kept & Hr & Hsub)%identify_headings_kept.
  exists kept. split; [done|]. split; [done|].
  pose proof (accepted_sources nfkc lines pdf) as Hsrc.
  split; [|split; [|split]].
  - rewrite Forall_forall in Hsrc |- *. intros e He.
    destruct (Hsrc e) as (level & line & ? & ? & _); [|by exists level, line].
    rewrite <- (sorted_Permutation key_lt). by eapply elem_of_sublist.
  - intros i a b Ha Hb.
    eapply StronglySorted_adjacent; [|done..].
    eapply StronglySorted_sublist; [done|].
    apply sorted_key_lt_reading.
    eapply Forall_impl; [done|]. by intros e (level & line & _ & -> & _).
  - apply sorted_Permutation.
  - intros p y. apply sorted_stable, has_key_class.
Qed.

(** ** Documents without usable font sizes *)

Lemma all_font_sizes_nil (lines : list Line.t) :
  (forall line span, line ∈ lines -> span ∈ Line.spans line ->
     (Span.size span <= 6)%Q) ->
  all_font_sizes lines = [].
Proof.
  unfold all_font_sizes. induction lines as [|l lines IH]; intros H; [done|].
  simpl. rewrite IH by (intros; eapply H; [by right|done]).
  rewrite app_nil_r.
  assert (Hl : forall span, span ∈ Line.spans l -> (Span.size span <= 6)%Q)
    by (intros; eapply H; [by left|done]).
  clear -Hl. induction (Line.spans l) as [|sp sps IH]; [done|].
  rewrite fmap_cons, filter_cons.
  destruct (decide _) as [Hgt|_].
  - apply Qltb_lt in Hgt. exfalso. eapply Qlt_not_le; [done|]. apply Hl. by left.
  - apply IH. intros. apply Hl. by right.
Qed.

Lemma strip_empty : strip "" = "".
Proof. reflexivity. Qed.

Lemma title_from_metadata_spec (nfkc : string -> string) (pdf : Pdf) :
  title_from_metadata nfkc pdf =
  match metadata_title pdf with
  | Some m =>
      if decide (strip m ≠ "" /\ 3 <= count_alnum m)
      then nfkc (strip m) else No_Title_Found
  | None => No_Title_Found
  end.
Proof.
  unfold title_from_metadata. destruct (metadata_title pdf) as [m|]; [|done].
  destruct (String.eqb_spec m "") as [Hm|Hm];
    destruct (String.eqb_spec (strip m) "") as [Hs|Hs];
    destruct (Z.geb_spec (count_alnum m) 3) as [Hc|Hc]; simpl;
    destruct (decide _) as [[? ?]|Hn]; try done; try lia;
    try (by subst m).
  exfalso. apply Hn. split; [done|lia].
Qed.

(** C8, as the code has it. For a non-empty sequence of lines in which no
    span has a size above 6, the result is an empty outline, and the title
    is the NFKC normalization of the trimmed metadata title when that
    title is non-empty after trimming and has at least 3 alphanumeric
    characters, and "No Title Found" otherwise; nothing is raised. *)
Theorem no_sizes_metadata_title_only (nfkc : string -> string)
    (lines : list Line.t) (pdf : Pdf) :
  lines ≠ [] ->
  (forall line span, line ∈ lines -> span ∈ Line.spans line ->
     (Span.size span <= 6)%Q) ->
  identify_headings nfkc lines pdf =
  Some (mkDocumentOutline
          (match metadata_title pdf with
           | Some m =>
               if decide (strip m ≠ "" /\ 3 <= count_alnum m)
               then nfkc (strip m) else No_Title_Found
           | None => No_Title_Found
           end) []).
Proof.
  intros Hne Hsizes. unfold identify_headings.
  destruct lines as [|l lines]; [done|].
  rewrite all_font_sizes_nil by done. by rewrite title_from_metadata_spec.
Qed.

(** ** Totality on lines with spans *)

Lemma cluster_step_scorable (st : clusters) (line : Line.t) :
  has_span line ->
  Forall scorable (title_candidates st) -> Forall has_span (current_title st) ->
  Forall scorable (title_candidates (cluster_step st line))
  /\ Forall has_span (current_title (cluster_step st line)).
Proof.
  intros Hl Hc Hcur. unfold cluster_step.
  destruct (match prev_size st with None => true | Some _ => _ end); simpl.
  - split; [done|]. apply Forall_app. split; [done|by constructor].
  - split; [|by repeat constructor].
    destruct (current_title st) eqn:E; [done|].
    apply Forall_app. split; [done|]. constructor; [by split|constructor].
Qed.

Lemma cluster_lines_scorable (first_page_lines : list Line.t) :
  Forall has_span first_page_lines -> Forall scorable (cluster_lines first_page_lines).
Proof.
  intros Hl. unfold cluster_lines.
  set (st0 := mkClusters [] [] None None).
  assert (H0 : Forall scorable (title_candidates st0) /\ Forall has_span (current_title st0))
    by (by split; constructor).
  generalize dependent st0. induction Hl as [|l ls Hl Hls IH]; intros st0 [Hc Hcur]; simpl.
  - destruct (current_title st0) eqn:E; [done|].
    apply Forall_app. split; [done|]. constructor; [by split|constructor].
  - apply IH. by apply cluster_step_scorable.
Qed.

Lemma candidate_score_is_Some (pdf : Pdf) (body : Q) (candidate : list Line.t) :
  scorable candidate -> is_Some (candidate_score pdf body candidate).
Proof.
  intros [Hne Hspans]. unfold candidate_score.
  destruct (mapM_is_Some_2 unguarded_avg_size candidate) as [avgs ->].
  { eapply Forall_impl; [done|]. intros l Hl. unfold has_span in Hl.
    unfold unguarded_avg_size. simpl. by destruct (Line.spans l). }
  destruct candidate as [|l0 candidate]; [done|]. simpl. by eexists.
Qed.

Lemma best_title_is_Some (pdf : Pdf) (body : Q) (best : Z * string)
    (candidates : list (list Line.t)) :
  Forall scorable candidates -> is_Some (best_title pdf body best candidates).
Proof.
  intros Hc. revert best. induction Hc as [|c cs Hc Hcs IH]; intros best; simpl.
  - by eexists.
  - unfold best_title_step.
    destruct (_ || _); simpl; [apply IH|].
    destruct (candidate_score_is_Some pdf body c Hc) as [score ->]. simpl.
    destruct (_ && _); simpl; apply IH.
Qed.

Lemma detect_title_is_Some (pdf : Pdf) (lines : list Line.t) (body : Q) (title : string) :
  Forall has_span lines -> is_Some (detect_title pdf lines body title).
Proof.
  intros Hl. unfold detect_title.
  destruct (best_title_is_Some pdf body (0, title)
    (cluster_lines (sorted (fun a b => (bbox_1 (Line.bbox a) <? bbox_1 (Line.bbox b))%Q)
       (filter (fun line => Line.page line = 1) lines)))) as [best ->].
  { apply cluster_lines_scorable. rewrite sorted_Permutation.
    rewrite Forall_forall in Hl |- *. intros l [_ Hin]%list_elem_of_filter. by apply Hl. }
  simpl. destruct (fst best >=? 80); by eexists.
Qed.

Lemma body_text_size_is_Some (sizes : list Q) :
  sizes ≠ [] -> is_Some (body_text_size sizes).
Proof.
  intros Hne. unfold body_text_size.
  destruct (median_is_Some sizes Hne) as [med ->]. simpl.
  destruct (most_common _) as [|[mode n] rest]; by eexists.
Qed.

(** On lines that all carry a span nothing is raised: [identify_headings]
    returns a result. *)
Lemma identify_headings_total (nfkc : string -> string) (lines : list Line.t) (pdf : Pdf) :
  Forall has_span lines -> is_Some (identify_headings nfkc lines pdf).
Proof.
  intros Hl. unfold identify_headings.
  destruct lines as [|l lines]; [by eexists|].
  destruct (all_font_sizes (l :: lines)) as [|s sizes] eqn:Hsizes; [by eexists|].
  unfold run_loop. rewrite Hsizes.
  destruct (body_text_size_is_Some (s :: sizes)) as [body ->]; [done|]. simpl.
  destruct (detect_title_is_Some pdf (l :: lines) body (title_from_metadata nfkc pdf) Hl)
    as [t ->].
  simpl. by eexists.
Qed.

(** ** The properties on the sample documents *)

Example identify_headings_repeated_heading :
  identify_headings nfkc_ascii doc_repeated_heading pdf_untitled =
  Some (mkDocumentOutline "Chapter 1"
          [Entry.mk "H1" "Chapter 2" 2 None; Entry.mk "H1" "Chapter 1" 3 None]).
Proof. vm_compute. reflexivity. Qed.

Example identify_headings_many_headings :
  (fun r => (title r, length (outline r))) <$>
    identify_headings nfkc_ascii doc_many_headings pdf_titled =
  Some ("Annual Report", 9%nat).
Proof. vm_compute. reflexivity. Qed.

Lemma per_page_cap_witness :
  exists r,
    identify_headings nfkc_ascii doc_many_headings pdf_titled = Some r
    /\ (length (on_page 2 (outline r)) <= 9)%nat.
Proof.
  eexists. split; [vm_compute; reflexivity|].
  refine (proj1 (per_page_cap nfkc_ascii doc_many_headings pdf_titled _ _) 2).
  vm_compute. reflexivity.
Defined.

Lemma no_duplicate_headings_witness :
  exists r,
    identify_headings nfkc_ascii doc_repeated_heading pdf_untitled = Some r
    /\ NoDup (heading_identifier <$> outline r).
Proof.
  eexists. split; [vm_compute; reflexivity|].
  refine (proj1 (no_duplicate_headings nfkc_ascii doc_repeated_heading pdf_untitled _ _)).
  vm_compute. reflexivity.
Defined.

Lemma title_not_in_outline_witness :
  exists r,
    identify_headings nfkc_ascii doc_repeated_heading pdf_untitled = Some r
    /\ exists title0 outline0,
         assemble nfkc_ascii doc_repeated_heading pdf_untitled = Some (title0, outline0)
         /\ match promoted title0 outline0 with
            | Some entry =>
                title r = Entry.text entry
                /\ forall e, e ∈ outline r ->
                     ¬ (Entry.text e = title r /\ Entry.page e = Entry.page entry)
            | None =>
                title r = title0
                /\ forall e, e ∈ outline r -> Entry.text e ≠ title r
            end.
Proof.
  eexists. split; [vm_compute; reflexivity|].
  refine (title_not_in_outline nfkc_ascii doc_repeated_heading pdf_untitled _ _).
  vm_compute. reflexivity.
Defined.

Lemma fallback_promotes_first_H1_witness :
  exists outline0,
    assemble nfkc_ascii doc_repeated_heading pdf_untitled = Some (No_Title_Found, outline0)
    /\ outline0 ≠ []
    /\ exists r, identify_headings nfkc_ascii doc_repeated_heading pdf_untitled = Some r.
Proof.
  eexists. split; [vm_compute; reflexivity|]. split; [done|].
  destruct (fallback_promotes_first_H1 nfkc_ascii doc_repeated_heading pdf_untitled
              [Entry.mk "H1" "Chapter 1" 2 None; Entry.mk "H1" "Chapter 2" 2 None;
               Entry.mk "H1" "Chapter 1" 3 None]) as (r & Hr & _).
  - vm_compute. reflexivity.
  - done.
  - by exists r.
Defined.

Lemma reading_order_witness :
  exists r kept,
    identify_headings nfkc_ascii doc_repeated_heading pdf_untitled = Some r
    /\ outline r = del_y0 <$> kept
    /\ forall i a b, kept !! i = Some a -> kept !! S i = Some b -> reading_le a b.
Proof.
  destruct (reading_order nfkc_ascii doc_repeated_heading pdf_untitled
              (mkDocumentOutline "Chapter 1"
                 [Entry.mk "H1" "Chapter 2" 2 None; Entry.mk "H1" "Chapter 1" 3 None]))
    as (kept & Hout & _ & _ & Hadj & _).
  - vm_compute. reflexivity.
  - eexists _, kept. split; [vm_compute; reflexivity|]. by split.
Defined.

Lemma no_sizes_metadata_title_only_witness :
  doc_tiny_print ≠ []
  /\ (forall line span, line ∈ doc_tiny_print -> span ∈ Line.spans line ->
        (Span.size span <= 6)%Q)
  /\ identify_headings nfkc_ascii doc_tiny_print pdf_padded_title =
     Some (mkDocumentOutline "Abc" []).
Proof.
  assert (H1 : doc_tiny_print ≠ []) by done.
  assert (H2 : forall line span, line ∈ doc_tiny_print -> span ∈ Line.spans line ->
                 (Span.size span <= 6)%Q).
  { intros line span ->%list_elem_of_singleton ->%list_elem_of_singleton. by vm_compute. }
  split; [done|]. split; [done|].
  by rewrite (no_sizes_metadata_title_only nfkc_ascii doc_tiny_print pdf_padded_title H1 H2).
Defined.

(** C8 as stated fails on a metadata title with spaces around it: the title
    returned is the normalization of the trimmed title, "Abc", not that of
    the metadata title, " Abc ", which NFKC leaves as it is. *)
Lemma metadata_title_is_trimmed :
  doc_tiny_print ≠ []
  /\ strip " Abc " ≠ "" /\ 3 <= count_alnum " Abc "
  /\ identify_headings nfkc_ascii doc_tiny_print pdf_padded_title =
     Some (mkDocumentOutline "Abc" [])
  /\ title <$> identify_headings nfkc_ascii doc_tiny_print pdf_padded_title
     ≠ Some (nfkc_ascii " Abc ").
Proof. repeat split; by vm_compute. Qed.

Lemma H4_never_read_witness :
  let m1 : gmap string Q := heading_size_map [20; 18; 15; 12]%Q in
  let m2 : gmap string Q := delete "H4" m1 in
  m1 !! "H4" ≠ m2 !! "H4"
  /\ outline_from m1 10 No_Title_Found doc_repeated_heading =
     outline_from m2 10 No_Title_Found doc_repeated_heading.
Proof.
  intros m1 m2. split; [by vm_compute|].
  refine (proj2 (proj2 (proj2 (H4_never_read m1 m2 _ _ _))) _ _ _);
    by vm_compute.
Defined.



(** * Further properties *)

(** ** The span filter *)

Lemma matches_separator_char (start : bool) (w rest : string) :
  matches separator_char start w rest <->
  exists c, w = String c "" /\ is_separator_char c = true.
Proof.
  unfold separator_char. split.
  - intros H.
    repeat (apply matches_alt_inv in H as [H|H];
            [apply matches_char_inv in H as ->; by eexists|]).
    apply matches_char_inv in H as ->. by eexists.
  - intros (c & -> & Hc). unfold is_separator_char in Hc. simpl in Hc.
    repeat (apply orb_true_iff in Hc as [Hc|Hc];
            [apply Ascii.eqb_eq in Hc as ->;
             repeat (first [by apply m_char | by apply m_alt_l, m_char | apply m_alt_r])|]).
    done.
Qed.

Lemma matches_star_separators (start : bool) (w rest : string) :
  matches (RStar separator_char) start w rest <-> all_separators w = true.
Proof.
  split.
  - intros H. remember (RStar separator_char) as r eqn:Hr. induction H; try done.
    injection Hr as ->.
    apply matches_separator_char in H as (d & [= -> ->] & Hd).
    rewrite append_cons, append_nil_l. simpl. rewrite Hd. by apply IHmatches2.
  - revert start. induction w as [|c w IH]; intros start H; [constructor|].
    simpl in H. apply andb_true_iff in H as [Hc Hw].
    change (String c w) with (String c "" +:+ w).
    constructor; [apply matches_separator_char; by eexists|by apply IH].
Qed.

Lemma at_end_cases (rest : string) :
  at_end rest = true <-> rest = "" \/ rest = String newline "".
Proof.
  unfold at_end. destruct rest as [|c [|c' rest]].
  - split; [by left|done].
  - rewrite Ascii.eqb_eq. split; [intros ->; by right|by intros [|[= ->]]].
  - split; [done|by intros [|]].
Qed.

(** What the separator pattern accepts. *)
Lemma separator_pattern_spec (text : string) :
  re_match separator_pattern text = true <->
  exists w,
    all_separators w = true /\ 2 <= len w
    /\ (text = w \/ text = w +:+ String newline "").
Proof.
  unfold re_match. rewrite re_match_from_spec. split.
  - intros (w & rest & -> & H). unfold separator_pattern in H.
    apply matches_seq_inv in H as (w0 & w' & -> & [-> _]%matches_start_inv & H).
    apply matches_seq_inv in H as (w1 & w'' & -> & (c1 & -> & H1)%matches_separator_char & H).
    apply matches_seq_inv in H as (w2 & w3 & -> & (c2 & -> & H2)%matches_separator_char & H).
    apply matches_seq_inv in H as (w4 & w5 & -> & H4%matches_star_separators
                                     & [-> Hend]%matches_end_inv).
    exists (String c1 (String c2 w4)).
    rewrite append_nil_l, !append_cons, !append_nil_l, append_nil_r.
    split; [simpl; by rewrite H1, H2|]. split; [unfold len; simpl; lia|].
    apply at_end_cases in Hend as [-> | ->]; [left; by rewrite append_nil_r|by right].
  - intros (w & Hw & Hlen & Htext).
    destruct w as [|c1 [|c2 w]]; [unfold len in Hlen; simpl in Hlen; lia..|].
    simpl in Hw. apply andb_true_iff in Hw as [H1 Hw].
    apply andb_true_iff in Hw as [H2 Hw].
    assert (Hm : forall rest, at_end rest = true ->
              matches separator_pattern true (String c1 (String c2 w)) rest).
    { intros rest Hend. unfold separator_pattern.
      replace (String c1 (String c2 w))
        with ("" +:+ (String c1 "" +:+ (String c2 "" +:+ (w +:+ ""))))
        by (by rewrite append_nil_l, !append_cons, !append_nil_l, append_nil_r).
      apply m_seq; [constructor|].
      apply m_seq; [apply matches_separator_char; by eexists|].
      apply m_seq; [apply matches_separator_char; by eexists|].
      apply m_seq; [by apply matches_star_separators|by constructor]. }
    destruct Htext as [-> | ->].
    + exists (String c1 (String c2 w)), "". split; [by rewrite append_nil_r|by apply Hm].
    + exists (String c1 (String c2 w)), (String newline ""). split; [done|by apply Hm].
Qed.

(** X1. A raw span is dropped exactly when its trimmed text is empty, or its
    normalized text is a run of two or more of the characters [-=~|*#+]
    (alone or before one final newline) or has fewer than 2 characters.
    A span that is not dropped adds its text and a space to the line text,
    its cleaned record to the spans, and its box to the box of the line. *)
Theorem span_dropped_iff (nfkc : string -> string) (acc : line_acc) (span : Span.t) :
  let text := nfkc (strip (Span.text span)) in
  (span_step nfkc acc span = acc <->
   strip (Span.text span) = "" \/ separator_run text \/ len text < 2)
  /\ (span_step nfkc acc span ≠ acc ->
      span_step nfkc acc span =
      mkLineAcc (line_text acc +:+ text +:+ " ")
        (line_spans_details acc ++
           [Span.mk text (Span.font span) (round2 (Span.size span))
              (Span.flags span) (Span.bbox span)])
        (Some (grow (line_box acc) (Span.bbox span)))).
Proof.
  intros text. unfold span_step. fold text.
  destruct (String.eqb_spec (strip (Span.text span)) "") as [He|He].
  { split; [|done]. split; [by left|done]. }
  destruct (re_match separator_pattern text) eqn:Hsep; cbn [orb].
  { split; [|done]. split; [|done]. intros _. right. left.
    by apply separator_pattern_spec. }
  destruct (Z.ltb_spec (len text) 2) as [Hlen|Hlen].
  { split; [|done]. split; [|done]. intros _. by right; right. }
  split; [|done]. split.
  - intros H. apply (f_equal (fun a => length (line_spans_details a))) in H.
    simpl in H. rewrite length_app in H. simpl in H. lia.
  - intros [H|[H%separator_pattern_spec|H]]; [done|congruence|lia].
Qed.

(** ** The spans of a line *)

Lemma Qmin2_le_l (a b : Q) : (Qmin2 a b <= a)%Q.
Proof.
  unfold Qmin2. destruct (b <? a)%Q eqn:E; [|apply Qle_refl].
  apply Qltb_lt in E. by apply Qlt_le_weak.
Qed.

Lemma Qmin2_le_r (a b : Q) : (Qmin2 a b <= b)%Q.
Proof.
  unfold Qmin2. destruct (b <? a)%Q eqn:E; [apply Qle_refl|]. by apply Qltb_ge.
Qed.

Lemma Qmax2_ge_l (a b : Q) : (a <= Qmax2 a b)%Q.
Proof.
  unfold Qmax2. destruct (a <? b)%Q eqn:E; [|apply Qle_refl].
  apply Qltb_lt in E. by apply Qlt_le_weak.
Qed.

Lemma Qmax2_ge_r (a b : Q) : (b <= Qmax2 a b)%Q.
Proof.
  unfold Qmax2. destruct (a <? b)%Q eqn:E; [apply Qle_refl|]. by apply Qltb_ge.
Qed.

Lemma Qmin2_cases (a b : Q) : Qmin2 a b = a \/ Qmin2 a b = b.
Proof. unfold Qmin2. destruct (b <? a)%Q; auto. Qed.

Lemma Qmax2_cases (a b : Q) : Qmax2 a b = a \/ Qmax2 a b = b.
Proof. unfold Qmax2. destruct (a <? b)%Q; auto. Qed.

Lemma spaced_app (l k : list Span.t) : spaced (l ++ k) = spaced l +:+ spaced k.
Proof.
  induction l as [|s l IH]; [done|].
  simpl. by rewrite IH, !append_assoc.
Qed.

Lemma union_box_first (s : Span.t) : union_box (Span.bbox s) [s].
Proof.
  unfold union_box. split.
  - repeat constructor; apply Qle_refl.
  - repeat split; exists s; split; try done; by left.
Qed.

Lemma union_box_grow (box : bbox) (spans : list Span.t) (s : Span.t) :
  union_box box spans -> union_box (grow (Some box) (Span.bbox s)) (spans ++ [s]).
Proof.
  destruct box as [[[x0 y0] x1] y1]. destruct (Span.bbox s) as [[[a0 b0] a1] b1] eqn:Es.
  unfold union_box. simpl.
  intros (Hall & (s0 & Hs0 & E0) & (s1 & Hs1 & E1) & (s2 & Hs2 & E2) & (s3 & Hs3 & E3)).
  split; [|repeat split].
  - apply Forall_app. split.
    + eapply Forall_impl; [done|]. simpl. intros s' (H0 & H1 & H2 & H3).
      repeat split.
      * eapply Qle_trans; [apply Qmin2_le_l|done].
      * eapply Qle_trans; [apply Qmin2_le_l|done].
      * eapply Qle_trans; [done|apply Qmax2_ge_l].
      * eapply Qle_trans; [done|apply Qmax2_ge_l].
    + repeat constructor; rewrite Es; simpl.
      * apply Qmin2_le_r.
      * apply Qmin2_le_r.
      * apply Qmax2_ge_r.
      * apply Qmax2_ge_r.
  - destruct (Qmin2_cases x0 a0) as [->| ->].
    + exists s0. split; [set_solver|done].
    + exists s. split; [set_solver|]. by rewrite Es.
  - destruct (Qmin2_cases y0 b0) as [->| ->].
    + exists s1. split; [set_solver|done].
    + exists s. split; [set_solver|]. by rewrite Es.
  - destruct (Qmax2_cases x1 a1) as [->| ->].
    + exists s2. split; [set_solver|done].
    + exists s. split; [set_solver|]. by rewrite Es.
  - destruct (Qmax2_cases y1 b1) as [->| ->].
    + exists s3. split; [set_solver|done].
    + exists s. split; [set_solver|]. by rewrite Es.
Qed.

Section span_fold.
Variable nfkc : string -> string.

Lemma span_step_inv (spans : list Span.t) (acc : line_acc) (span : Span.t) :
  span ∈ spans -> acc_inv nfkc spans acc -> acc_inv nfkc spans (span_step nfkc acc span).
Proof.
  intros Hin (Htext & Hclean & Hbox). unfold span_step.
  destruct (String.eqb_spec (strip (Span.text span)) "") as [|Hne]; [done|].
  destruct (re_match _ _) eqn:Hsep; [done|].
  destruct (Z.ltb_spec (len (nfkc (strip (Span.text span)))) 2) as [|Hlen]; [done|].
  simpl. set (s := Span.mk _ _ _ _ _).
  split; [|split]; simpl.
  - rewrite spaced_app, Htext. simpl. by rewrite append_nil_r.
  - apply Forall_app. split; [done|]. repeat constructor.
    exists span. split; [done|]. by repeat split.
  - destruct (line_box acc) as [box|].
    + by apply (union_box_grow box _ s).
    + rewrite Hbox. simpl.
      assert (grow None (Span.bbox span) = Span.bbox s) as ->.
      { simpl. by destruct (Span.bbox span) as [[[? ?] ?] ?]. }
      apply union_box_first.
Qed.

Lemma span_fold_inv (spans : list Span.t) :
  acc_inv nfkc spans (foldl (span_step nfkc) (mkLineAcc "" [] None) spans).
Proof.
  assert (H0 : acc_inv nfkc spans (mkLineAcc "" [] None)) by (by repeat split).
  assert (Hsub : spans ⊆ spans) by done.
  revert H0 Hsub. generalize (mkLineAcc "" [] None). generalize spans at 1 3 4.
  intros all. induction spans as [|s ss IH]; intros acc Hacc Hsub; [done|].
  simpl. apply IH; [|set_solver]. apply span_step_inv; [set_solver|done].
Qed.

End span_fold.

(** ** The lines of a page *)

Lemma foldM_inv {S A} (f : S -> A -> option S) (I : S -> Prop) (l : list A)
    (st st' : S) :
  (forall st x st', x ∈ l -> I st -> f st x = Some st' -> I st') ->
  I st -> foldM f st l = Some st' -> I st'.
Proof.
  revert st. induction l as [|x l IH]; intros st Hstep Hst Hfold; simpl in Hfold.
  - by injection Hfold as <-.
  - destruct (f st x) as [st1|] eqn:E; [|done]. simpl in Hfold.
    eapply (IH st1); [|by eapply Hstep; [left|..]|done].
    intros. eapply Hstep; [by right|done..].
Qed.

Lemma foldM_is_Some {S A} (f : S -> A -> option S) (l : list A) (st : S) :
  (forall st x, x ∈ l -> is_Some (f st x)) -> is_Some (foldM f st l).
Proof.
  revert st. induction l as [|x l IH]; intros st Hstep; simpl; [by eexists|].
  destruct (Hstep st x) as [st1 ->]; [by left|]. simpl.
  apply IH. intros. apply Hstep. by right.
Qed.

Lemma last_y1_snoc (prev : option Q) (ls : list Line.t) (l : Line.t) :
  last_y1 prev (ls ++ [l]) = Some (bbox_3 (Line.bbox l)).
Proof. unfold last_y1. by rewrite last_snoc. Qed.

Lemma last_y1_cons (prev : option Q) (l : Line.t) (ls : list Line.t) :
  last_y1 prev (l :: ls) = last_y1 (Some (bbox_3 (Line.bbox l))) ls.
Proof.
  unfold last_y1. rewrite last_cons. by destruct (last ls).
Qed.

Lemma spaced_from_snoc (prev : option Q) (ls : list Line.t) (l : Line.t) :
  spaced_from prev (ls ++ [l]) <->
  spaced_from prev ls
  /\ Line.spacing_above l =
     match last_y1 prev ls with
     | Some prev_y1 => (bbox_1 (Line.bbox l) - prev_y1)%Q
     | None => 0%Q
     end.
Proof.
  revert prev. induction ls as [|l' ls IH]; intros prev; simpl.
  - unfold last_y1. simpl. tauto.
  - rewrite IH, last_y1_cons. tauto.
Qed.

Section page.
Variable nfkc : string -> string.

(** A round of the loop over the raw lines either skips the line or appends
    one line with the facts of [line_facts]; it raises only on a page of
    width 0. *)
Lemma line_step_cases (page_num : Z) (page : Page.t) (block : Block.t)
    (st st' : list Line.t * option Q) (spans : list Span.t) :
  line_step nfkc page_num page block st spans = Some st' ->
  st' = st
  \/ exists l,
       st' = (fst st ++ [l], Some (bbox_3 (Line.bbox l)))
       /\ line_facts nfkc page_num page block (snd st) spans l.
Proof.
  unfold line_step.
  pose proof (span_fold_inv nfkc spans) as (Htext & Hclean & Hbox).
  set (acc := foldl _ _ spans) in *.
  destruct (String.eqb_spec (strip (line_text acc)) "") as [|Hne];
    [intros [= <-]; by left|].
  destruct (Z.ltb_spec (len (strip (line_text acc))) 3) as [|Hlen];
    [intros [= <-]; by left|].
  destruct (Z.ltb_spec (count_alnum (strip (line_text acc))) 2) as [|Halnum];
    [intros [= <-]; by left|].
  cbn [orb].
  destruct (line_box acc) as [[[[x0 y0] x1] y1]|]; [|intros [= <-]; by left].
  destruct (y0 <? 0.1 * Page.height page)%Q eqn:Etop; [intros [= <-]; by left|].
  destruct (Qltb (0.9 * Page.height page) y1) eqn:Ebot; [intros [= <-]; by left|].
  cbn [orb].
  destruct (Qeq_bool (Page.width page) 0) eqn:Ew; [intros H; discriminate H|].
  intros [= <-]. right.
  match goal with |- context [fst st ++ [?l]] => exists l end.
  split; [reflexivity|].
  split;
    cbn [Line.text Line.page Line.bbox Line.spans Line.is_centered
         Line.spacing_above Line.block_density bbox_0 bbox_1 bbox_2 bbox_3 fst snd];
    try done.
  - by rewrite Htext.
  - destruct Hbox as (_ & (s & Hs & _) & _). intros Hnil. rewrite Hnil in Hs.
    by apply elem_of_nil in Hs.
  - by apply Qltb_ge.
  - by apply Qltb_ge.
  - intros Hw%Qeq_bool_iff. congruence.
Qed.

Lemma line_step_None (page_num : Z) (page : Page.t) (block : Block.t)
    (st : list Line.t * option Q) (spans : list Span.t) :
  line_step nfkc page_num page block st spans = None -> (Page.width page == 0)%Q.
Proof.
  unfold line_step.
  repeat (match goal with
          | |- context [if ?b then _ else _] => destruct b eqn:?
          | |- context [match ?o with Some _ => _ | None => _ end] => destruct o
          | |- context [let '(_, _) := ?p in _] => destruct p
          end; try done).
  intros _. by apply Qeq_bool_iff.
Qed.

Lemma block_step_inv (page_num : Z) (page : Page.t) (block : Block.t)
    (st st' : list Line.t * option Q) :
  block ∈ Page.blocks page ->
  page_inv nfkc page_num page st ->
  block_step nfkc page_num page st block = Some st' ->
  page_inv nfkc page_num page st'.
Proof.
  intros Hblock Hst. unfold block_step.
  destruct (Z.eqb_spec (Block.type block) 0) as [Htype|]; simpl;
    [|by intros [= <-]].
  apply foldM_inv; [|done].
  clear st st' Hst. intros st spans st' Hspans (Hall & Hsp & Hprev) Hstep.
  apply line_step_cases in Hstep as [->|(l & -> & Hl)]; [done|].
  split; [|split]; simpl.
  - apply Forall_app. split; [done|]. repeat constructor.
    by exists block, spans, (snd st).
  - apply spaced_from_snoc. split; [done|]. rewrite <- Hprev. apply Hl.
  - by rewrite last_y1_snoc.
Qed.

Lemma page_lines_inv (page_num : Z) (page : Page.t) (ls : list Line.t) :
  page_lines nfkc page_num page = Some ls ->
  Forall (line_of_page nfkc page_num page) ls /\ spaced_from None ls.
Proof.
  unfold page_lines.
  destruct (foldM _ _ _) as [[ls' prev]|] eqn:E; [|done]. simpl. intros [= <-].
  assert (page_inv nfkc page_num page (ls', prev)) as (H1 & H2 & _); [|done].
  eapply foldM_inv; [| |exact E].
  - intros st b st' Hb. by apply block_step_inv.
  - by repeat split.
Qed.

End page.

(** ** The lines of a document *)

Section document.
Variable nfkc : string -> string.

Lemma document_lines_from_spec (page_num : Z) (pages : list Page.t)
    (acc out : list Line.t) :
  document_lines_from nfkc page_num pages acc = Some out <->
  exists per, pages_lines nfkc page_num pages per /\ out = acc ++ concat per.
Proof.
  revert page_num acc. induction pages as [|page pages IH]; intros k acc; simpl.
  - split.
    + intros [= <-]. exists []. by rewrite app_nil_r.
    + intros ([|ls per] & H & ->); [|done]. by rewrite app_nil_r.
  - destruct (page_lines nfkc k page) as [ls|] eqn:E; simpl.
    + rewrite IH. split.
      * intros (per & H & ->). exists (ls :: per). simpl.
        by rewrite app_assoc.
      * intros ([|ls' per] & H & ->); [done|]. destruct H as [[= <-] H].
        exists per. simpl. by rewrite app_assoc.
    + split; [done|]. intros ([|ls' per] & H & _); [done|]. by destruct H.
Qed.

Lemma pages_lines_elem (page_num : Z) (pages : list Page.t)
    (per : list (list Line.t)) (l : Line.t) :
  pages_lines nfkc page_num pages per -> l ∈ concat per ->
  exists i page,
    pages !! i = Some page
    /\ Line.page l = page_num + Z.of_nat i + 1
    /\ line_of_page nfkc (page_num + Z.of_nat i) page l.
Proof.
  revert page_num per. induction pages as [|page pages IH]; intros k [|ls per] H Hl;
    simpl in *; try done.
  - by apply elem_of_nil in Hl.
  - destruct H as [Hls H]. apply elem_of_app in Hl as [Hl|Hl].
    + exists 0%nat, page. split; [done|].
      apply page_lines_inv in Hls as [Hall _]. rewrite Forall_forall in Hall.
      specialize (Hall l Hl). rewrite Z.add_0_r. split; [|done].
      destruct Hall as (b & sp & prev & _ & _ & _ & Hf). apply Hf.
    + destruct (IH (k + 1) per H Hl) as (i & page' & Hi & Hp & Hof).
      exists (S i), page'. split; [done|].
      replace (k + Z.of_nat (S i)) with (k + 1 + Z.of_nat i) by lia. done.
Qed.

(** Every line that the extraction returns was built on the page of its
    number from a raw line of a text block of that page. *)
Lemma extract_text_details_line (file : option Document) (l : Line.t) :
  l ∈ extract_text_details nfkc file ->
  exists doc page,
    file = Some doc
    /\ 1 <= Line.page l
    /\ pages doc !! Z.to_nat (Line.page l - 1) = Some page
    /\ line_of_page nfkc (Line.page l - 1) page l.
Proof.
  unfold extract_text_details. destruct file as [doc|]; [|by intros ?%elem_of_nil].
  destruct (document_lines_from nfkc 0 (pages doc) []) as [out|] eqn:E;
    [|by intros ?%elem_of_nil].
  simpl. intros Hl. apply document_lines_from_spec in E as (per & Hper & ->).
  simpl in Hl. destruct (pages_lines_elem 0 (pages doc) per l Hper Hl)
    as (i & page & Hi & Hp & Hof).
  exists doc, page. split; [done|]. split; [lia|].
  replace (Line.page l - 1) with (0 + Z.of_nat i) by lia.
  split; [|done]. by rewrite Z.add_0_l, Nat2Z.id.
Qed.

Lemma pages_lines_order (page_num : Z) (pages : list Page.t)
    (per : list (list Line.t)) :
  pages_lines nfkc page_num pages per ->
  StronglySorted (fun a b => Line.page a <= Line.page b) (concat per)
  /\ Forall (fun l => page_num + 1 <= Line.page l) (concat per).
Proof.
  revert page_num per. induction pages as [|page pages IH]; intros k [|ls per] H;
    simpl in *; try done.
  { split; constructor. }
  destruct H as [Hls H]. destruct (IH (k + 1) per H) as [Hs Hge].
  apply page_lines_inv in Hls as [Hall _].
  assert (Hk : Forall (fun l => Line.page l = k + 1) ls).
  { eapply Forall_impl; [done|]. intros l (b & sp & prev & _ & _ & _ & Hf). apply Hf. }
  clear Hall. split.
  - induction Hk as [|l ls Hl Hk IHk]; simpl; [done|].
    constructor; [done|]. apply Forall_app. split.
    + eapply Forall_impl; [exact Hk|]. simpl. intros. lia.
    + eapply Forall_impl; [exact Hge|]. simpl. intros. lia.
  - apply Forall_app. split.
    + eapply Forall_impl; [exact Hk|]. simpl. intros. lia.
    + eapply Forall_impl; [exact Hge|]. simpl. intros. lia.
Qed.

Lemma doc_spaced_same_page (a : Line.t) (ls : list Line.t) :
  Forall (fun l => Line.page l = Line.page a) ls ->
  spaced_from (Some (bbox_3 (Line.bbox a))) ls -> doc_spaced (Some a) ls.
Proof.
  revert a. induction ls as [|l ls IH]; intros a Hp Hs; simpl; [done|].
  apply Forall_cons in Hp as [Hl Hp]. destruct Hs as [Hsp Hs].
  rewrite decide_True by done. split; [done|].
  apply IH; [|done]. eapply Forall_impl; [done|]. simpl. intros. congruence.
Qed.

Lemma doc_spaced_new_page (prev : option Line.t) (p : Z) (ls : list Line.t) :
  Forall (fun l => Line.page l = p) ls ->
  match prev with Some a => Line.page a ≠ p | None => True end ->
  spaced_from None ls -> doc_spaced prev ls.
Proof.
  intros Hp Hprev Hs. destruct ls as [|l ls]; [done|].
  apply Forall_cons in Hp as [Hl Hp]. destruct Hs as [Hsp Hs]. simpl. split.
  - destruct prev as [a|]; [|done]. rewrite decide_False; [done|congruence].
  - apply doc_spaced_same_page; [|done].
    eapply Forall_impl; [done|]. simpl. intros. congruence.
Qed.

Lemma doc_spaced_app (prev : option Line.t) (l1 l2 : list Line.t) :
  doc_spaced prev (l1 ++ l2) <->
  doc_spaced prev l1
  /\ doc_spaced (match last l1 with Some a => Some a | None => prev end) l2.
Proof.
  revert prev. induction l1 as [|l l1 IH]; intros prev; simpl; [tauto|].
  rewrite IH, last_cons. destruct (last l1); tauto.
Qed.

Lemma pages_lines_spaced (page_num : Z) (pages : list Page.t)
    (per : list (list Line.t)) (prev : option Line.t) :
  pages_lines nfkc page_num pages per ->
  match prev with Some a => Line.page a <= page_num | None => True end ->
  doc_spaced prev (concat per).
Proof.
  revert page_num per prev.
  induction pages as [|page pages IH]; intros k [|ls per] prev H Hprev;
    simpl in *; try done.
  destruct H as [Hls H]. apply page_lines_inv in Hls as [Hall Hs].
  assert (Hk : Forall (fun l => Line.page l = k + 1) ls).
  { eapply Forall_impl; [done|]. intros l (b & sp & pr & _ & _ & _ & Hf). apply Hf. }
  apply doc_spaced_app. split.
  - apply (doc_spaced_new_page prev (k + 1)); [done| |done].
    destruct prev; [lia|done].
  - apply (IH (k + 1)); [done|].
    destruct (last ls) as [a|] eqn:Ela.
    + apply last_Some in Ela as (ls' & ->). apply Forall_app in Hk as [_ Hk].
      apply Forall_cons in Hk as [-> _]. lia.
    + destruct prev; [lia|done].
Qed.

Lemma doc_spaced_adjacent (prev : option Line.t) (ls : list Line.t) (i : nat)
    (a b : Line.t) :
  doc_spaced prev ls -> ls !! i = Some a -> ls !! S i = Some b ->
  Line.spacing_above b =
  if decide (Line.page a = Line.page b)
  then (bbox_1 (Line.bbox b) - bbox_3 (Line.bbox a))%Q else 0%Q.
Proof.
  revert prev i. induction ls as [|l ls IH]; intros prev i Hs Ha Hb; [done|].
  destruct Hs as [_ Hs]. destruct i as [|i]; simpl in *.
  - injection Ha as ->. destruct ls as [|l' ls]; [done|].
    injection Hb as ->. by destruct Hs as [Hs _].
  - by eapply IH.
Qed.

End document.

(** ** What the extraction returns *)

(** X2. Every line returned by the extraction is well formed: it has at
    least one span, its text is the trimmed row of its spans' texts, each
    followed by a space, with 3 characters or more of which 2 or more are
    alphanumeric, its page number lies between 1 and the number of pages,
    and its block density is at least 1. *)
Theorem extracted_line_well_formed (nfkc : string -> string)
    (file : option Document) (l : Line.t) :
  l ∈ extract_text_details nfkc file ->
  Line.spans l ≠ []
  /\ Line.text l = strip (spaced (Line.spans l))
  /\ 3 <= len (Line.text l)
  /\ 2 <= count_alnum (Line.text l)
  /\ 1 <= Line.block_density l
  /\ exists doc, file = Some doc
       /\ 1 <= Line.page l <= Z.of_nat (length (pages doc)).
Proof.
  intros (doc & page & -> & Hp & Hpage & (b & sp & prev & Hb & _ & Hsp & Hf))
    %extract_text_details_line.
  destruct Hf. repeat split; try done.
  - rewrite lf_density0. destruct (Block.lines b); [by apply elem_of_nil in Hsp|].
    simpl. lia.
  - exists doc. split; [done|]. split; [done|].
    apply lookup_lt_Some in Hpage. lia.
Qed.


(** X4. The box of a returned line is the union of the boxes of its spans:
    it contains each of them, and each of its four sides is the side of one
    of them. *)
Theorem extracted_line_box_is_union (nfkc : string -> string)
    (file : option Document) (l : Line.t) :
  l ∈ extract_text_details nfkc file -> union_box (Line.bbox l) (Line.spans l).
Proof.
  intros (doc & page & -> & Hp & Hpage & (b & sp & prev & _ & _ & _ & Hf))
    %extract_text_details_line.
  apply Hf.
Qed.

(** X5. Every span of a returned line comes from a raw span of a text block
    of the line's page: its text is the normalized trimmed raw text, at
    least 2 characters long and no separator run, its size is the raw size
    rounded to 2 decimals, and font, flags and box are the raw ones. *)
Theorem extracted_span_is_cleaned_raw_span (nfkc : string -> string)
    (file : option Document) (l : Line.t) (s : Span.t) :
  l ∈ extract_text_details nfkc file -> s ∈ Line.spans l ->
  exists doc page block spans raw,
    file = Some doc
    /\ pages doc !! Z.to_nat (Line.page l - 1) = Some page
    /\ block ∈ Page.blocks page /\ Block.type block = 0
    /\ spans ∈ Block.lines block /\ raw ∈ spans
    /\ cleaned nfkc raw s.
Proof.
  intros (doc & page & -> & Hp & Hpage & (b & sp & prev & Hb & Ht & Hsp & Hf))
    %extract_text_details_line Hs.
  destruct Hf. rewrite Forall_forall in lf_cleaned0.
  destruct (lf_cleaned0 s Hs) as (raw & Hraw & Hc).
  by exists doc, page, b, sp, raw.
Qed.



(** X7. The returned lines are in the order of the pages: no line is
    followed by a line of an earlier page. *)
Theorem extracted_lines_in_page_order (nfkc : string -> string)
    (file : option Document) :
  StronglySorted (fun a b => Line.page a <= Line.page b)
    (extract_text_details nfkc file).
Proof.
  unfold extract_text_details. destruct file as [doc|]; [|constructor].
  destruct (document_lines_from nfkc 0 (pages doc) []) as [out|] eqn:E;
    [|constructor].
  apply document_lines_from_spec in E as (per & Hper & ->). simpl.
  by apply pages_lines_order in Hper as [? _].
Qed.

(** X8. [spacing_above] of a returned line is its top minus the bottom of
    the line returned before it when both are on one page, and 0 when it is
    the first line of its page. *)
Theorem extracted_spacing_above (nfkc : string -> string) (file : option Document) :
  (forall a, head (extract_text_details nfkc file) = Some a ->
     Line.spacing_above a = 0%Q)
  /\ (forall i a b,
        extract_text_details nfkc file !! i = Some a ->
        extract_text_details nfkc file !! S i = Some b ->
        Line.spacing_above b =
        if decide (Line.page a = Line.page b)
        then (bbox_1 (Line.bbox b) - bbox_3 (Line.bbox a))%Q else 0%Q).
Proof.
  assert (H : doc_spaced None (extract_text_details nfkc file)).
  { unfold extract_text_details. destruct file as [doc|]; [|done].
    destruct (document_lines_from nfkc 0 (pages doc) []) as [out|] eqn:E; [|done].
    apply document_lines_from_spec in E as (per & Hper & ->). simpl.
    by apply (pages_lines_spaced nfkc 0 (pages doc)). }
  split.
  - intros a Ha. destruct (extract_text_details nfkc file) as [|l ls]; [done|].
    injection Ha as ->. by destruct H as [H _].
  - intros i a b. by apply (doc_spaced_adjacent None).
Qed.

Section document_more.
Variable nfkc : string -> string.

Lemma foldM_text_blocks (page_num : Z) (page : Page.t) (blocks : list Block.t)
    (st : list Line.t * option Q) :
  foldM (block_step nfkc page_num
           (Page.mk (filter (fun block => Block.type block = 0) (Page.blocks page))
              (Page.height page) (Page.width page))) st
    (filter (fun block => Block.type block = 0) blocks) =
  foldM (block_step nfkc page_num page) st blocks.
Proof.
  revert st. induction blocks as [|b blocks IH]; intros st; [done|].
  rewrite filter_cons. destruct (decide (Block.type b = 0)) as [Hb|Hb]; simpl.
  - change (block_step nfkc page_num (Page.mk _ _ _) st b)
      with (block_step nfkc page_num page st b).
    destruct (block_step nfkc page_num page st b); simpl; [apply IH|done].
  - rewrite IH.
    assert (block_step nfkc page_num page st b = Some st) as ->; [|done].
    unfold block_step. apply Z.eqb_neq in Hb. by rewrite Hb.
Qed.

Lemma document_lines_text_blocks (page_num : Z) (pages : list Page.t)
    (acc : list Line.t) :
  document_lines_from nfkc page_num
    ((fun page =>
        Page.mk (filter (fun block => Block.type block = 0) (Page.blocks page))
          (Page.height page) (Page.width page)) <$> pages) acc =
  document_lines_from nfkc page_num pages acc.
Proof.
  revert page_num acc. induction pages as [|page pages IH]; intros k acc; [done|].
  rewrite fmap_cons. simpl. unfold page_lines at 1. simpl.
  rewrite foldM_text_blocks. fold (page_lines nfkc k page).
  destruct (page_lines nfkc k page); simpl; [apply IH|done].
Qed.

Lemma line_step_is_Some (page_num : Z) (page : Page.t) (block : Block.t)
    (st : list Line.t * option Q) (spans : list Span.t) :
  ¬ (Page.width page == 0)%Q ->
  is_Some (line_step nfkc page_num page block st spans).
Proof.
  intros Hw. destruct (line_step nfkc page_num page block st spans) eqn:E; [done|].
  by apply line_step_None in E.
Qed.

Lemma page_lines_is_Some (page_num : Z) (page : Page.t) :
  ¬ (Page.width page == 0)%Q -> is_Some (page_lines nfkc page_num page).
Proof.
  intros Hw. unfold page_lines. apply fmap_is_Some, foldM_is_Some.
  intros st b _. unfold block_step. destruct (negb _); [done|].
  apply foldM_is_Some. intros. by apply line_step_is_Some.
Qed.

Lemma pages_lines_lookup (page_num : Z) (pages : list Page.t)
    (per : list (list Line.t)) (i : nat) (page : Page.t) :
  pages_lines nfkc page_num pages per -> pages !! i = Some page ->
  is_Some (page_lines nfkc (page_num + Z.of_nat i) page).
Proof.
  revert page_num per i. induction pages as [|p pages IH]; intros k [|ls per] i H Hi;
    simpl in *; try done.
  destruct H as [Hls H]. destruct i as [|i]; simpl in Hi.
  - injection Hi as ->. rewrite Z.add_0_r, Hls. done.
  - replace (k + Z.of_nat (S i)) with (k + 1 + Z.of_nat i) by lia. by eapply IH.
Qed.

Lemma pages_lines_exist (page_num : Z) (pages : list Page.t) :
  Forall (fun page => ¬ (Page.width page == 0)%Q) pages ->
  exists per, pages_lines nfkc page_num pages per.
Proof.
  intros H. revert page_num. induction H as [|page pages Hw H IH]; intros k.
  - by exists [].
  - destruct (page_lines_is_Some k page Hw) as [ls Hls].
    destruct (IH (k + 1)) as [per Hper]. by exists (ls :: per).
Qed.

End document_more.

(** X9. Blocks that are not text blocks leave no trace: the extraction of a
    document and of the document without them are the same. *)
Theorem extraction_ignores_non_text_blocks (nfkc : string -> string)
    (doc : Document) :
  extract_text_details nfkc (Some (text_blocks_only doc)) =
  extract_text_details nfkc (Some doc).
Proof.
  unfold extract_text_details, text_blocks_only. simpl.
  by rewrite document_lines_text_blocks.
Qed.

(** X10. When no page has width 0 the extraction raises nothing: it returns
    the lines of the pages, page after page. *)
Theorem extraction_complete_without_zero_width (nfkc : string -> string)
    (doc : Document) :
  Forall (fun page => ¬ (Page.width page == 0)%Q) (pages doc) ->
  exists per,
    pages_lines nfkc 0 (pages doc) per
    /\ extract_text_details nfkc (Some doc) = concat per.
Proof.
  intros H. destruct (pages_lines_exist nfkc 0 (pages doc) H) as [per Hper].
  exists per. split; [done|]. unfold extract_text_details.
  assert (document_lines_from nfkc 0 (pages doc) [] = Some (concat per)) as ->; [|done].
  apply document_lines_from_spec. by exists per.
Qed.

(** X11. The extraction is all or nothing: when the lines of one page raise,
    which only a page of width 0 does, the lines of every page are lost and
    the result is empty. *)
Theorem extraction_lost_on_a_raising_page (nfkc : string -> string)
    (doc : Document) (i : nat) (page : Page.t) :
  pages doc !! i = Some page ->
  page_lines nfkc (Z.of_nat i) page = None ->
  (Page.width page == 0)%Q /\ extract_text_details nfkc (Some doc) = [].
Proof.
  intros Hi Hnone. split.
  - destruct (Qeq_dec (Page.width page) 0) as [|Hw]; [done|].
    destruct (page_lines_is_Some nfkc (Z.of_nat i) page Hw) as [ls Hls]. congruence.
  - unfold extract_text_details.
    destruct (document_lines_from nfkc 0 (pages doc) []) as [out|] eqn:E; [|done].
    apply document_lines_from_spec in E as (per & Hper & _).
    destruct (pages_lines_lookup nfkc 0 (pages doc) per i page Hper Hi) as [ls Hls].
    rewrite Z.add_0_l in Hls. congruence.
Qed.

Lemma extracted_lines_have_spans (nfkc : string -> string) (file : option Document) :
  Forall has_span (extract_text_details nfkc file).
Proof.
  apply Forall_forall. intros l
    (doc & page & -> & Hp & Hpage & (b & sp & prev & _ & _ & _ & Hf))
    %extract_text_details_line.
  apply Hf.
Qed.

(** X12. On the lines of an extraction [identify_headings] raises nothing,
    whatever the metadata and the first page height: the unguarded division
    of the title scoring never meets a line without spans. *)
Theorem identify_headings_returns_on_extracted_lines (nfkc : string -> string)
    (file : option Document) (pdf : Pdf) :
  is_Some (identify_headings nfkc (extract_text_details nfkc file) pdf).
Proof. apply identify_headings_total, extracted_lines_have_spans. Qed.




(** ** The loop over the lines, once more *)

Lemma assign_level_floor (m : gmap string Q) (avg : Q) (score : Z) (level : string) :
  assign_level m avg score = Some level ->
  (level = "H1" /\ 100 <= score) \/ (level = "H2" /\ 90 <= score)
  \/ (level = "H3" /\ 80 <= score).
Proof.
  unfold assign_level.
  destruct (reaches m "H1" avg && (score >=? 100)) eqn:E1.
  { intros [= <-]. left. apply andb_true_iff in E1 as [_ H]. split; [done|lia]. }
  destruct (_ && (score >=? 90)) eqn:E2.
  { intros [= <-]. right. left. apply andb_true_iff in E2 as [_ H]. split; [done|lia]. }
  destruct (_ && (score >=? 80)) eqn:E3; [|done].
  intros [= <-]. right. right. apply andb_true_iff in E3 as [_ H]. split; [done|lia].
Qed.

Lemma scan_step_accepted (m : gmap string Q) (body : Q) (title : string)
    (st : scan) (line : Line.t) :
  scan_step m body title st line = st
  \/ exists e,
       accepted_line m body title line e
       /\ scan_outline (scan_step m body title st line) = scan_outline st ++ [e].
Proof.
  unfold scan_step.
  destruct (Z.ltb_spec (count_alnum (Line.text line)) 2) as [|Ha]; [by left|].
  destruct (Z.ltb_spec (len (Line.text line)) 3) as [|Hl]; [by left|].
  cbn [orb].
  destruct (per_page _ _ >? 8); [by left|].
  destruct (Line.block_density line >? 5) eqn:Hd; [by left|].
  destruct (Z.ltb_spec (compute_heading_score line m body) 80) as [|Hs]; [by left|].
  destruct (assign_level _ _ _) as [level|] eqn:Hlevel; [|by left].
  case_bool_decide as Htitle; [|by left].
  case_bool_decide as Hseen; [|by left].
  right. eexists (entry_of level line). split; [|done].
  repeat split; try done. rewrite Z.gtb_ltb in Hd. by apply Z.ltb_ge in Hd.
Qed.

Lemma scan_lines_accepted (m : gmap string Q) (body : Q) (title : string)
    (lines : list Line.t) :
  Forall (fun e => exists line, line ∈ lines /\ accepted_line m body title line e)
    (scan_outline (scan_lines m body title lines)).
Proof.
  induction lines as [|line lines IH] using rev_ind; [constructor|].
  rewrite scan_lines_snoc.
  assert (IH' : Forall (fun e => exists l, l ∈ lines ++ [line]
                          /\ accepted_line m body title l e)
                  (scan_outline (scan_lines m body title lines))).
  { eapply Forall_impl; [done|]. intros e (l & ? & ?). exists l. split; [set_solver|done]. }
  destruct (scan_step_accepted m body title (scan_lines m body title lines) line)
    as [->|(e & He & ->)]; [done|].
  apply Forall_app. split; [done|]. repeat constructor. exists line. split; [set_solver|done].
Qed.

Lemma run_loop_inv (nfkc : string -> string) (lines : list Line.t) (pdf : Pdf)
    (t : string) (raw : list Entry.t) :
  run_loop nfkc lines pdf = Some (t, raw) ->
  exists body,
    body_text_size (all_font_sizes lines) = Some body
    /\ detect_title pdf lines body (title_from_metadata nfkc pdf) = Some t
    /\ raw = scan_outline
               (scan_lines
                  (heading_size_map (potential_heading_sizes (all_font_sizes lines) body))
                  body t lines).
Proof.
  unfold run_loop.
  destruct (body_text_size _) as [body|]; [|done]. simpl.
  destruct (detect_title _ _ _ _) as [t'|] eqn:Et; [|done]. simpl.
  intros [= -> <-]. by exists body.
Qed.

(** What the map of heading sizes holds. *)
Lemma heading_size_map_entry (cands : list Q) (k : string) (v : Q) :
  heading_size_map cands !! k = Some v ->
  k ∈ tiers /\ v ∈ cands /\ is_Some (heading_size_map cands !! "H1").
Proof.
  intros Hk.
  destruct (heading_size_map_lookup cands) as (H1 & H2 & H3 & H4).
  assert (Hcases : k = "H1" \/ k = "H2" \/ k = "H3" \/ k = "H4").
  { destruct (decide (k = "H1")) as [|N1]; [by left|].
    destruct (decide (k = "H2")) as [|N2]; [by right; left|].
    destruct (decide (k = "H3")) as [|N3]; [by right; right; left|].
    destruct (decide (k = "H4")) as [|N4]; [by right; right; right|].
    exfalso. unfold heading_size_map in Hk.
    repeat (match type of Hk with
            | context [if ?b then _ else _] => destruct b
            | context [match ?l with [] => _ | _ :: _ => _ end] => destruct l
            end);
      repeat (rewrite lookup_insert_ne in Hk by done); by rewrite lookup_empty in Hk. }
  assert (Htier : forall i, (if distinct_tier cands i then cands !! i else None) = Some v ->
            v ∈ cands /\ is_Some (cands !! 0%nat)).
  { intros i Hi. destruct (distinct_tier cands i) eqn:E; [|done].
    split; [by eapply list_elem_of_lookup_2|].
    apply distinct_tier_spec in E as (c & c0 & _ & -> & _). done. }
  rewrite H1.
  destruct Hcases as [-> | [-> | [-> | ->]]]; (split; [unfold tiers; rewrite !elem_of_cons; tauto|]).
  - rewrite H1 in Hk. split; [by eapply list_elem_of_lookup_2|]. by rewrite Hk.
  - rewrite H2 in Hk. by apply Htier in Hk.
  - rewrite H3 in Hk. by apply Htier in Hk.
  - rewrite H4 in Hk. by apply Htier in Hk.
Qed.





(** X14. Every entry of the returned outline is a line of the input: it has
    the text and the page of a line that has 2 alphanumeric characters and 3
    characters or more, sits in a block of at most 5 lines and scores at
    least 80, at least 90 for an H2 and 100 for an H1; its level is the one
    the cascade assigns to that line, one of H1, H2 and H3; and it carries
    no [y0]. *)
Theorem outline_entry_source (nfkc : string -> string) (lines : list Line.t)
    (pdf : Pdf) (r : DocumentOutline) (e : Entry.t) :
  identify_headings nfkc lines pdf = Some r -> e ∈ outline r ->
  exists line body,
    line ∈ lines
    /\ body_text_size (all_font_sizes lines) = Some body
    /\ let m := heading_size_map
                  (potential_heading_sizes (all_font_sizes lines) body) in
       let score := compute_heading_score line m body in
       e = Entry.mk (Entry.level e) (Line.text line) (Line.page line) None
       /\ assign_level m (avg_size_of (Line.spans line)) score = Some (Entry.level e)
       /\ ((Entry.level e = "H1" /\ 100 <= score)
           \/ (Entry.level e = "H2" /\ 90 <= score)
           \/ (Entry.level e = "H3" /\ 80 <= score))
       /\ Line.block_density line <= 5
       /\ 2 <= count_alnum (Line.text line)
       /\ 3 <= len (Line.text line).
Proof.
  intros (kept & Hout & Hsub)%identify_headings_kept He.
  rewrite Hout in He. apply list_elem_of_fmap in He as (e' & -> & He').
  eapply elem_of_sublist in He'; [|done]. rewrite sorted_Permutation in He'.
  unfold accepted in He'.
  destruct (run_loop nfkc lines pdf) as [[t raw]|] eqn:Hrun;
    [|by apply elem_of_nil in He'].
  apply run_loop_inv in Hrun as (body & Hbody & _ & ->).
  pose proof (scan_lines_accepted
    (heading_size_map (potential_heading_sizes (all_font_sizes lines) body))
    body t lines) as Hall.
  rewrite Forall_forall in Hall.
  destruct (Hall e' He') as (line & Hline & He'' & Hlevel & Hs & Hd & Ha & Hl & _).
  exists line, body. split; [done|]. split; [done|]. cbn zeta.
  split; [rewrite He''; reflexivity|].
  split; [done|]. split; [by apply assign_level_floor in Hlevel|done].
Qed.


(** X16. A result whose title is "No Title Found" has no H1 entry: whenever
    an H1 is left in the outline, a title was found or promoted. *)
Theorem no_title_means_no_H1 (nfkc : string -> string) (lines : list Line.t)
    (pdf : Pdf) (r : DocumentOutline) :
  identify_headings nfkc lines pdf = Some r ->
  title r = No_Title_Found ->
  forall e, e ∈ outline r -> Entry.level e ≠ "H1".
Proof.
  intros (t & o & Hasm & ->)%identify_headings_inv.
  apply assemble_inv in Hasm as [-> (st & Hst & Hinv)].
  unfold fallback, promoted.
  destruct (bool_decide (t = No_Title_Found)) eqn:Et; simpl.
  - apply bool_decide_eq_true in Et.
    destruct (bool_decide (_ = [])) eqn:Enil; simpl.
    + apply bool_decide_eq_true in Enil. rewrite Enil. by intros _ e ?%elem_of_nil.
    + destruct (list_find _ _) as [[i entry]|] eqn:Hfind; simpl.
      * intros Htitle. exfalso. apply list_find_Some in Hfind as (Hi & _ & _).
        apply list_elem_of_lookup_2, list_elem_of_fmap in Hi as (e' & -> & He').
        rewrite sorted_Permutation, <- Hst in He'.
        pose proof (inv_title _ _ _ Hinv) as Hne. rewrite Forall_forall in Hne.
        apply (Hne e' He'). simpl in Htitle. congruence.
      * intros _ e He. apply list_find_None in Hfind.
        rewrite Forall_forall in Hfind. by apply Hfind.
  - apply bool_decide_eq_false in Et. simpl. done.
Qed.

(** ** Scores, tiers and levels *)

(** X17. A score lies between 0 and 185, the sum of all signals with the
    largest tier bonus. *)
Theorem compute_heading_score_range (line : Line.t) (m : gmap string Q) (body : Q) :
  0 <= compute_heading_score line m body <= 185.
Proof.
  unfold compute_heading_score.
  repeat (match goal with |- context [if ?b then _ else _] => destruct b end); lia.
Qed.

(** X18. In the map of heading sizes of a document there is nothing under
    other keys than H1 to H4, every size in it is a size of the document
    above 1.2 times the body size, and a tier is never there without H1:
    inside [identify_headings] the default of the lookup of H1 in the level
    cascade is never used. *)
Theorem heading_size_map_keys (lines : list Line.t) (body : Q) (k : string) (v : Q) :
  heading_size_map (potential_heading_sizes (all_font_sizes lines) body) !! k = Some v ->
  k ∈ tiers
  /\ v ∈ all_font_sizes lines /\ (body * 1.2 < v)%Q
  /\ is_Some (heading_size_map
                (potential_heading_sizes (all_font_sizes lines) body) !! "H1").
Proof.
  intros (Hk & Hv & H1)%heading_size_map_entry.
  apply potential_heading_sizes_elem in Hv as [Hv Hgt]. done.
Qed.

(** X19. With the heading sizes of a document, a line whose average size
    reaches the H1 size but whose score is below 100 is never an H2: it gets
    no level, unless the H2 tier is missing and the H3 tier is there, in
    which case it is an H3 from a score of 80 on. *)
Theorem large_line_below_H1_floor (sizes : list Q) (body avg : Q) (score : Z) :
  let m := heading_size_map (potential_heading_sizes sizes body) in
  reaches m "H1" avg = true -> score < 100 ->
  assign_level m avg score =
  match m !! "H2", m !! "H3" with
  | None, Some _ => if score >=? 80 then Some "H3" else None
  | _, _ => None
  end.
Proof.
  intros m Hreach Hscore.
  pose proof (potential_heading_sizes_descending sizes body) as Hdesc.
  set (cands := potential_heading_sizes sizes body) in *.
  destruct (heading_size_map_lookup cands) as (H1 & H2 & H3 & _).
  fold m in H1, H2, H3.
  unfold assign_level. rewrite Hreach.
  destruct (Z.geb_spec score 100) as [|_]; [lia|]. cbn [andb].
  unfold reaches in Hreach |- *.
  destruct (m !! "H1") as [h1|] eqn:E1; [|done].
  apply Qle_bool_iff in Hreach.
  assert (Hbelow1 : (avg <? h1 * 0.95)%Q = false) by (by apply Qltb_ge).
  rewrite Hbelow1, andb_false_r. cbn [andb].
  assert (Hlow : forall i c, (1 <= i)%nat -> cands !! i = Some c ->
            (c * 0.95 < h1 * 0.95)%Q).
  { intros i c Hi Hc. apply Qmult_lt_compat_r; [done|].
    apply (StronglySorted_lookup (fun a b => (b < a)%Q) cands 0 i h1 c);
      [done|lia|by rewrite <- H1|done]. }
  destruct (m !! "H2") as [h2|] eqn:E2.
  - assert (Hh2 : cands !! 1%nat = Some h2).
    { destruct (distinct_tier cands 1); congruence. }
    assert ((avg <? h2 * 0.95)%Q = false) as ->.
    { apply Qltb_ge. apply Qlt_le_weak. eapply Qlt_le_trans; [|done].
      apply (Hlow 1%nat); [lia|done]. }
    rewrite andb_false_r. by destruct (m !! "H3").
  - destruct (m !! "H3") as [h3|] eqn:E3; [|done].
    assert (Hh3 : cands !! 2%nat = Some h3).
    { destruct (distinct_tier cands 2); congruence. }
    assert ((avg >=? h3 * 0.95)%Q = true) as ->; [|done].
    apply Qle_bool_iff. apply Qlt_le_weak. eapply Qlt_le_trans; [|done].
    apply (Hlow 2%nat); [lia|done].
Qed.

(** X20. [is_bold] reads exactly one bit of the flags, the bit of value 4. *)
Theorem is_bold_bit (flags : Z) : is_bold flags = Z.testbit flags 2.
Proof.
  unfold is_bold. change 4 with (Z.shiftl 1 2).
  destruct (Z.testbit flags 2) eqn:E.
  - apply negb_true_iff, Z.eqb_neq. intros H.
    apply (f_equal (fun z => Z.testbit z 2)) in H.
    rewrite Z.land_spec, E, Z.shiftl_spec, Z.bits_0 in H by lia. simpl in H. done.
  - apply negb_false_iff, Z.eqb_eq. apply Z.bits_inj'. intros n Hn.
    rewrite Z.land_spec, Z.bits_0, Z.shiftl_spec by done.
    destruct (decide (n = 2)) as [->|Hne]; [by rewrite E|].
    rewrite andb_false_iff. right.
    destruct (Z_lt_le_dec (n - 2) 0) as [Hlt|Hge]; [by apply Z.testbit_neg_r|].
    apply Z.bits_above_log2; simpl; lia.
Qed.

(** ** Title detection *)

Lemma cluster_step_concat (st : clusters) (line : Line.t) :
  concat (title_candidates (cluster_step st line))
    ++ current_title (cluster_step st line)
  = (concat (title_candidates st) ++ current_title st) ++ [line]
  /\ (Forall (fun c => c ≠ []) (title_candidates st) ->
      Forall (fun c => c ≠ []) (title_candidates (cluster_step st line))).
Proof.
  unfold cluster_step.
  destruct (match prev_size st with None => true | Some _ => _ end);
    cbn [title_candidates current_title].
  - split; [by rewrite app_assoc|done].
  - destruct (current_title st) as [|l0 ls] eqn:E.
    + split; [by rewrite !app_nil_r|done].
    + split.
      * by rewrite concat_app, concat_cons, concat_nil, app_nil_r.
      * intros H. apply Forall_app. split; [done|]. by repeat constructor.
Qed.

Lemma cluster_fold_concat (ls done_ : list Line.t) (st : clusters) :
  concat (title_candidates st) ++ current_title st = done_ ->
  Forall (fun c => c ≠ []) (title_candidates st) ->
  concat (title_candidates (foldl cluster_step st ls))
    ++ current_title (foldl cluster_step st ls) = done_ ++ ls
  /\ Forall (fun c => c ≠ []) (title_candidates (foldl cluster_step st ls)).
Proof.
  revert done_ st. induction ls as [|l ls IH]; intros done_ st Hc Hne; simpl.
  - by rewrite app_nil_r.
  - destruct (cluster_step_concat st l) as [Hc' Hne'].
    destruct (IH (done_ ++ [l]) (cluster_step st l)) as [H1 H2];
      [by rewrite Hc', Hc|by apply Hne'|].
    split; [|done]. by rewrite H1, <- app_assoc.
Qed.

(** X21. The clusters of title detection are a partition of the first-page
    lines into runs: put one after the other they give back the lines in
    their order, and no cluster is empty. *)
Theorem cluster_lines_partition (first_page_lines : list Line.t) :
  concat (cluster_lines first_page_lines) = first_page_lines
  /\ Forall (fun candidate => candidate ≠ []) (cluster_lines first_page_lines).
Proof.
  unfold cluster_lines.
  destruct (cluster_fold_concat first_page_lines [] (mkClusters [] [] None None))
    as [Hc Hne]; [done..|].
  destruct (current_title _) as [|l ls] eqn:E.
  - by rewrite app_nil_r in Hc.
  - split.
    + by rewrite concat_app, concat_cons, concat_nil, app_nil_r.
    + apply Forall_app. split; [done|]. by repeat constructor.
Qed.

Lemma best_title_cons (pdf : Pdf) (body : Q) (best : Z * string)
    (candidate : list Line.t) (rest : list (list Line.t)) :
  best_title pdf body best (candidate :: rest) =
  best' ← best_title_step pdf body best candidate;
  best_title pdf body best' rest.
Proof. reflexivity. Qed.

Lemma best_title_step_cases (pdf : Pdf) (body : Q) (s0 : Z) (t0 : string)
    (candidate : list Line.t) (best' : Z * string) :
  best_title_step pdf body (s0, t0) candidate = Some best' ->
  (best' = (s0, t0)
   /\ forall s', eligible candidate = true ->
        candidate_score pdf body candidate = Some s' -> s' <= s0 \/ s' < 80)
  \/ (exists s, best' = (s, title_text candidate) /\ eligible candidate = true
        /\ candidate_score pdf body candidate = Some s /\ s0 < s /\ 80 <= s).
Proof.
  unfold best_title_step, eligible, title_text.
  destruct (_ || _); cbn [negb fst].
  { intros [= <-]. left. split; [done|]. by intros. }
  destruct (candidate_score pdf body candidate) as [s|]; [|done]. simpl.
  destruct (Z.gtb_spec s s0) as [Hgt|Hle];
    destruct (Z.geb_spec s 80) as [Hge|Hlt]; simpl; intros [= <-].
  - right. exists s. repeat split; try done; lia.
  - left. split; [done|]. intros s' _ [= <-]. lia.
  - left. split; [done|]. intros s' _ [= <-]. lia.
  - left. split; [done|]. intros s' _ [= <-]. lia.
Qed.

Lemma best_title_spec (pdf : Pdf) (body : Q) (cands : list (list Line.t))
    (s0 s : Z) (t0 t : string) :
  best_title pdf body (s0, t0) cands = Some (s, t) ->
  (s = s0 /\ t = t0
   /\ forall c s', c ∈ cands -> eligible c = true ->
        candidate_score pdf body c = Some s' -> s' <= s0 \/ s' < 80)
  \/ (s0 < s /\ 80 <= s
      /\ exists i c,
           cands !! i = Some c /\ eligible c = true
           /\ candidate_score pdf body c = Some s /\ t = title_text c
           /\ (forall j c' s', (j < i)%nat -> cands !! j = Some c' ->
                 eligible c' = true -> candidate_score pdf body c' = Some s' -> s' < s)
           /\ (forall c' s', c' ∈ cands -> eligible c' = true ->
                 candidate_score pdf body c' = Some s' -> s' <= s)).
Proof.
  revert s0 t0. induction cands as [|c cands IH]; intros s0 t0.
  { simpl. intros [= -> ->]. left. repeat split. by intros ? ? ?%elem_of_nil. }
  rewrite best_title_cons.
  destruct (best_title_step pdf body (s0, t0) c) as [best'|] eqn:Hstep; [|done].
  simpl. intros Hrest.
  apply best_title_step_cases in Hstep
    as [[-> Hc]|(sc & -> & Hel & Hsc & Hgt & Hge)].
  - apply IH in Hrest
      as [(-> & -> & Hall)|(Hlt & Hs & i & c1 & Hi & He1 & Hs1 & -> & Hbefore & Hmax)].
    + left. repeat split. intros c' s' [->|Hin]%elem_of_cons; [apply Hc|by apply Hall].
    + right. split; [done|]. split; [done|]. exists (S i), c1.
      repeat split; try done.
      * intros [|j] c' s' Hj Hc' He' Hs'; simpl in Hc'.
        -- injection Hc' as <-. destruct (Hc s' He' Hs'); lia.
        -- eapply (Hbefore j); [lia|done..].
      * intros c' s' [->|Hin]%elem_of_cons He' Hs'.
        -- destruct (Hc s' He' Hs'); lia.
        -- by eapply Hmax.
  - apply IH in Hrest
      as [(-> & -> & Hall)|(Hlt & Hs & i & c1 & Hi & He1 & Hs1 & -> & Hbefore & Hmax)].
    + right. split; [done|]. split; [done|]. exists 0%nat, c.
      repeat split; try done.
      * intros j c' s' Hj. lia.
      * intros c' s' [->|Hin]%elem_of_cons He' Hs'; [by injection (eq_trans (eq_sym Hsc) Hs') as ->|].
        destruct (Hall c' s' Hin He' Hs'); lia.
    + right. split; [lia|]. split; [done|]. exists (S i), c1.
      repeat split; try done.
      * intros [|j] c' s' Hj Hc' He' Hs'; simpl in Hc'.
        -- injection Hc' as <-. rewrite Hsc in Hs'. injection Hs' as <-. lia.
        -- eapply (Hbefore j); [lia|done..].
      * intros c' s' [->|Hin]%elem_of_cons He' Hs'.
        -- rewrite Hsc in Hs'. injection Hs' as <-. lia.
        -- by eapply Hmax.
Qed.

(** X22. The title after visual detection is the title it started from
    unless a cluster of first-page lines whose text passes the check scores
    80 or more; then it is the text of the cluster with the highest score,
    the first one among equals. *)
Theorem detect_title_best_cluster (pdf : Pdf) (lines : list Line.t) (body : Q)
    (title t : string) :
  detect_title pdf lines body title = Some t ->
  let cands := cluster_lines (first_page_lines lines) in
  (t = title
   /\ forall c s', c ∈ cands -> eligible c = true ->
        candidate_score pdf body c = Some s' -> s' < 80)
  \/ (exists i c s,
        cands !! i = Some c /\ eligible c = true
        /\ candidate_score pdf body c = Some s /\ 80 <= s
        /\ t = title_text c
        /\ (forall j c' s', (j < i)%nat -> cands !! j = Some c' ->
              eligible c' = true -> candidate_score pdf body c' = Some s' -> s' < s)
        /\ (forall c' s', c' ∈ cands -> eligible c' = true ->
              candidate_score pdf body c' = Some s' -> s' <= s)).
Proof.
  intros H cands. unfold detect_title in H.
  fold (first_page_lines lines) in H. fold cands in H.
  destruct (best_title pdf body (0, title) cands) as [[s t']|] eqn:Hbest; [|done].
  simpl in H.
  apply best_title_spec in Hbest
    as [(-> & -> & Hall)|(Hlt & Hs & i & c & Hi & He & Hsc & -> & Hbefore & Hmax)].
  - simpl in H. injection H as <-. left. split; [done|].
    intros c s' Hc He Hs'. destruct (Hall c s' Hc He Hs'); lia.
  - destruct (Z.geb_spec s 80) as [_|]; [|lia]. injection H as <-.
    right. by exists i, c, s.
Qed.


(** ** The further properties on the sample documents *)

Lemma span_dropped_iff_witness :
  span_step nfkc_ascii (mkLineAcc "" [] None)
    (raw_span "of the report " 12.5 0 (190, 198, 300, 214)%Q)
  = mkLineAcc "of the report "
      [Span.mk "of the report" "Helvetica" (round2 12.5) 0 (190, 198, 300, 214)%Q]
      (Some (190, 198, 300, 214)%Q).
Proof.
  refine (proj2 (span_dropped_iff nfkc_ascii (mkLineAcc "" [] None)
                   (raw_span "of the report " 12.5 0 (190, 198, 300, 214)%Q)) _).
  by vm_compute.
Defined.

Lemma extracted_line_well_formed_witness :
  exists l,
    extract_text_details nfkc_ascii (Some raw_report) !! 1%nat = Some l
    /\ Line.spans l ≠ []
    /\ Line.text l = strip (spaced (Line.spans l))
    /\ 3 <= len (Line.text l).
Proof.
  eexists. split; [vm_compute; reflexivity|].
  destruct (extracted_line_well_formed nfkc_ascii (Some raw_report)
              (Line.mk "Introduction of the report" 1 (72, 198, 300, 214)%Q
                 [Span.mk "Introduction" "Helvetica" 12.00 0 (72, 200, 150, 212)%Q;
                  Span.mk "of the report" "Helvetica" 12.50 0 (190, 198, 300, 214)%Q]
                 false 74 3))
    as (Hs & Ht & Hl & _).
  - apply (list_elem_of_lookup_2 _ 1%nat). vm_compute. reflexivity.
  - done.
Defined.


Lemma extracted_line_box_is_union_witness :
  exists l,
    extract_text_details nfkc_ascii (Some raw_report) !! 1%nat = Some l
    /\ union_box (Line.bbox l) (Line.spans l).
Proof.
  eexists. split; [vm_compute; reflexivity|].
  apply (extracted_line_box_is_union nfkc_ascii (Some raw_report)).
  apply (list_elem_of_lookup_2 _ 1%nat). vm_compute. reflexivity.
Defined.

Lemma extracted_span_is_cleaned_raw_span_witness :
  exists l s,
    extract_text_details nfkc_ascii (Some raw_report) !! 1%nat = Some l
    /\ Line.spans l !! 1%nat = Some s
    /\ exists doc page block spans raw,
         Some raw_report = Some doc
         /\ pages doc !! Z.to_nat (Line.page l - 1) = Some page
         /\ block ∈ Page.blocks page /\ Block.type block = 0
         /\ spans ∈ Block.lines block /\ raw ∈ spans
         /\ cleaned nfkc_ascii raw s.
Proof.
  eexists _, _. split; [vm_compute; reflexivity|]. split; [vm_compute; reflexivity|].
  apply (extracted_span_is_cleaned_raw_span nfkc_ascii (Some raw_report)).
  - apply (list_elem_of_lookup_2 _ 1%nat). vm_compute. reflexivity.
  - apply (list_elem_of_lookup_2 _ 1%nat). vm_compute. reflexivity.
Defined.


Lemma extraction_complete_without_zero_width_witness :
  exists per,
    pages_lines nfkc_ascii 0 (pages raw_report) per
    /\ extract_text_details nfkc_ascii (Some raw_report) = concat per.
Proof.
  apply extraction_complete_without_zero_width.
  repeat constructor; by intros H.
Defined.

Lemma extraction_lost_on_a_raising_page_witness :
  exists page,
    pages raw_zero_width !! 1%nat = Some page
    /\ (Page.width page == 0)%Q
    /\ extract_text_details nfkc_ascii (Some raw_zero_width) = [].
Proof.
  eexists. split; [reflexivity|].
  apply (extraction_lost_on_a_raising_page nfkc_ascii raw_zero_width 1);
    [reflexivity|vm_compute; reflexivity].
Defined.

Lemma outline_entry_source_witness :
  exists r e line,
    identify_headings nfkc_ascii doc_close_sizes pdf_titled = Some r
    /\ outline r !! 2%nat = Some e
    /\ line ∈ doc_close_sizes
    /\ e = Entry.mk "H3" (Line.text line) (Line.page line) None.
Proof.
  destruct (outline_entry_source nfkc_ascii doc_close_sizes pdf_titled
              (mkDocumentOutline "Annual Report"
                 [Entry.mk "H1" "Results" 2 None; Entry.mk "H1" "Discussion" 2 None;
                  Entry.mk "H3" "Appendix" 2 None])
              (Entry.mk "H3" "Appendix" 2 None))
    as (line & body & Hline & _ & He & _).
  - vm_compute. reflexivity.
  - apply (list_elem_of_lookup_2 _ 2%nat). reflexivity.
  - eexists _, _, line. split; [vm_compute; reflexivity|]. split; [reflexivity|].
    split; [done|]. exact He.
Defined.


Lemma no_title_means_no_H1_witness :
  exists r,
    identify_headings nfkc_ascii doc_plain_large pdf_untitled = Some r
    /\ title r = No_Title_Found
    /\ outline r ≠ []
    /\ forall e, e ∈ outline r -> Entry.level e ≠ "H1".
Proof.
  eexists. split; [vm_compute; reflexivity|]. split; [reflexivity|].
  split; [done|].
  apply (no_title_means_no_H1 nfkc_ascii doc_plain_large pdf_untitled);
    [vm_compute; reflexivity|reflexivity].
Defined.

Lemma heading_size_map_keys_witness :
  "H2" ∈ tiers
  /\ 15%Q ∈ all_font_sizes doc_plain_large /\ (10 * 1.2 < 15)%Q
  /\ is_Some (heading_size_map
                (potential_heading_sizes (all_font_sizes doc_plain_large) 10) !! "H1").
Proof.
  apply (heading_size_map_keys doc_plain_large 10 "H2" 15). vm_compute. reflexivity.
Defined.

Lemma large_line_below_H1_floor_witness :
  assign_level
    (heading_size_map (potential_heading_sizes (all_font_sizes doc_plain_large) 10))
    20 85 = None.
Proof.
  rewrite (large_line_below_H1_floor (all_font_sizes doc_plain_large) 10 20 85);
    [by vm_compute|by vm_compute|lia].
Defined.

Lemma detect_title_best_cluster_witness :
  exists c s,
    cluster_lines (first_page_lines (extract_text_details nfkc_ascii (Some raw_report)))
      !! 0%nat = Some c
    /\ candidate_score (pdf_of raw_report) 12 c = Some s /\ 80 <= s
    /\ title_text c = "Annual Report 2024".
Proof.
  destruct (detect_title_best_cluster (pdf_of raw_report)
              (extract_text_details nfkc_ascii (Some raw_report)) 12
              "Report" "Annual Report 2024")
    as [[Ht _]|(i & c & s & Hi & _ & Hs & Hge & Ht & Hfirst & _)].
  - vm_compute. reflexivity.
  - discriminate Ht.
  - destruct i as [|i].
    + exists c, s. by repeat split.
    + exfalso. vm_compute in Hi. destruct i as [|[|i]]; [|done..].
      injection Hi as <-. vm_compute in Ht. discriminate Ht.
Defined.
